(** * dc-federated: worker registry, long-poll notifications, process bridge

    A shallow embedding of
    - [dc_federated/backend/_worker_manager.py] (class [WorkerManager]),
    - [dc_federated/backend/dcf_server.py] (class [DCFServer], the admin
      removal and the long-poll notification handlers),
    - [dc_federated/backend/zmq_interface.py] and [zqm_interface.py]
      (the two process bridges),
    together with the properties of the specification that concern them.

    Python objects are records, dictionaries are [gmap]s, lists are lists,
    [bytes] are lists of [byte], a raised exception is the [Raise] case of
    [result].  Everything the code takes from outside the repository's
    shown files (PyNaCl's signature check, the constants module, the
    message helper) is gathered in the class [Externals]. *)

From Stdlib Require Import ZArith NArith Ascii String List Lia.
From Stdlib Require Import Decimal DecimalString DecimalPos DecimalZ.
From Stdlib.Strings Require Import Byte.
From stdpp Require Import gmap strings list fin_maps.

Open Scope string_scope.

(* ===================================================================== *)
(** * Python values and exceptions *)
(* ===================================================================== *)

Abbreviation bytes := (list byte).

(** The exception classes that the modelled code can raise. *)
Inductive exn : Type :=
| BinasciiError      (* binascii.Error: odd length or non-hex digit *)
| BadSignatureError  (* nacl.exceptions.BadSignatureError *)
| ValueError
| KeyError
| TypeError
| IndexError
| UnpicklingError.

(** Outcome of a call: a returned value or a raised exception. *)
Inductive result (A : Type) : Type :=
| Ret (a : A)
| Raise (e : exn).
Arguments Ret {A} a.
Arguments Raise {A} e.

Definition bind {A B : Type} (r : result A) (k : A -> result B) : result B :=
  match r with
  | Ret a => k a
  | Raise e => Raise e
  end.

Notation "'let*' x ':=' r 'in' k" := (bind r (fun x => k))
  (at level 10, x pattern, r at level 200, k at level 200).

Definition returns {A : Type} (r : result A) : bool :=
  match r with Ret _ => true | Raise _ => false end.

(** A call whose value, when it returns, is what was sent. *)
Definition option_map_result {A : Type} (r : result A) : result (option A) :=
  let* a := r in Ret (Some a).

#[global] Instance byte_eq_decision : EqDecision byte := Byte.byte_eq_dec.

(** [s.encode()] / [b.decode('utf-8')]: a [str] is kept as its UTF-8 text. *)
Definition encode (s : string) : bytes := list_byte_of_string s.
Definition decode (b : bytes) : string := string_of_list_byte b.

(* ===================================================================== *)
(** * binascii: hexadecimal text (nacl.encoding.HexEncoder) *)
(* ===================================================================== *)

(** Value of one hexadecimal digit, either case, as [binascii.a2b_hex]
    reads it. *)
Definition hex_val (b : byte) : option N :=
  let n := Byte.to_N b in
  if ((48 <=? n) && (n <=? 57))%N then Some (n - 48)%N
  else if ((97 <=? n) && (n <=? 102))%N then Some (n - 87)%N
  else if ((65 <=? n) && (n <=? 70))%N then Some (n - 55)%N
  else None.

(** [binascii.unhexlify]: [None] stands for [binascii.Error]. *)
Fixpoint unhexlify (bs : bytes) : option bytes :=
  match bs with
  | [] => Some []
  | [_] => None
  | h :: l :: rest =>
      match hex_val h, hex_val l with
      | Some a, Some b =>
          match Byte.of_N (16 * a + b), unhexlify rest with
          | Some c, Some r => Some (c :: r)
          | _, _ => None
          end
      | _, _ => None
      end
  end.

Definition hex_digit (n : N) : byte :=
  match Byte.of_N (if (n <? 10)%N then n + 48 else n + 87)%N with
  | Some b => b
  | None => x00
  end.

(** [binascii.hexlify]: two lower-case digits per byte. *)
Fixpoint hexlify (bs : bytes) : bytes :=
  match bs with
  | [] => []
  | b :: rest =>
      hex_digit (Byte.to_N b / 16) :: hex_digit (Byte.to_N b mod 16)
        :: hexlify rest
  end.

(** [HexEncoder.decode] *)
Definition HexEncoder_decode (data : bytes) : result bytes :=
  match unhexlify data with
  | Some b => Ret b
  | None => Raise BinasciiError
  end.

(* ===================================================================== *)
(** * hashlib.sha224 (FIPS 180-4), on 32-bit words kept in [Z] *)
(* ===================================================================== *)

Module SHA224.

Local Open Scope Z_scope.

Definition w32 (x : Z) : Z := Z.land x 0xffffffff.
Definition add32 (x y : Z) : Z := w32 (x + y).
Definition rotr (n x : Z) : Z :=
  Z.lor (Z.shiftr x n) (w32 (Z.shiftl x (32 - n))).
Definition shr (n x : Z) : Z := Z.shiftr x n.
Definition not32 (x : Z) : Z := Z.lxor x 0xffffffff.

Definition Ch (x y z : Z) : Z := Z.lxor (Z.land x y) (Z.land (not32 x) z).
Definition Maj (x y z : Z) : Z :=
  Z.lxor (Z.land x y) (Z.lxor (Z.land x z) (Z.land y z)).
Definition bsig0 (x : Z) : Z := Z.lxor (rotr 2 x) (Z.lxor (rotr 13 x) (rotr 22 x)).
Definition bsig1 (x : Z) : Z := Z.lxor (rotr 6 x) (Z.lxor (rotr 11 x) (rotr 25 x)).
Definition ssig0 (x : Z) : Z := Z.lxor (rotr 7 x) (Z.lxor (rotr 18 x) (shr 3 x)).
Definition ssig1 (x : Z) : Z := Z.lxor (rotr 17 x) (Z.lxor (rotr 19 x) (shr 10 x)).

Definition K : list Z :=
  [ 0x428A2F98; 0x71374491; 0xB5C0FBCF; 0xE9B5DBA5;
    0x3956C25B; 0x59F111F1; 0x923F82A4; 0xAB1C5ED5;
    0xD807AA98; 0x12835B01; 0x243185BE; 0x550C7DC3;
    0x72BE5D74; 0x80DEB1FE; 0x9BDC06A7; 0xC19BF174;
    0xE49B69C1; 0xEFBE4786; 0x0FC19DC6; 0x240CA1CC;
    0x2DE92C6F; 0x4A7484AA; 0x5CB0A9DC; 0x76F988DA;
    0x983E5152; 0xA831C66D; 0xB00327C8; 0xBF597FC7;
    0xC6E00BF3; 0xD5A79147; 0x06CA6351; 0x14292967;
    0x27B70A85; 0x2E1B2138; 0x4D2C6DFC; 0x53380D13;
    0x650A7354; 0x766A0ABB; 0x81C2C92E; 0x92722C85;
    0xA2BFE8A1; 0xA81A664B; 0xC24B8B70; 0xC76C51A3;
    0xD192E819; 0xD6990624; 0xF40E3585; 0x106AA070;
    0x19A4C116; 0x1E376C08; 0x2748774C; 0x34B0BCB5;
    0x391C0CB3; 0x4ED8AA4A; 0x5B9CCA4F; 0x682E6FF3;
    0x748F82EE; 0x78A5636F; 0x84C87814; 0x8CC70208;
    0x90BEFFFA; 0xA4506CEB; 0xBEF9A3F7; 0xC67178F2 ].

(** Initial hash value of SHA-224. *)
Definition H0 : list Z :=
  [ 0xc1059ed8; 0x367cd507; 0x3070dd17; 0xf70e5939;
    0xffc00b31; 0x68581511; 0x64f98fa7; 0xbefa4fa4 ].

Definition byteZ (b : byte) : Z := Z.of_N (Byte.to_N b).

(** Big-endian bytes of the low [n] bytes of [x]. *)
Fixpoint be_bytes (n : nat) (x : Z) : list Z :=
  match n with
  | O => []
  | S n' => Z.land (Z.shiftr x (8 * Z.of_nat n')) 0xff :: be_bytes n' x
  end.

(** Padding: a one bit, zeros up to 56 modulo 64, the bit length on 8 bytes. *)
Definition pad (msg : bytes) : list Z :=
  let len := Z.of_nat (List.length msg) in
  let zeros := Z.to_nat ((55 - len) mod 64) in
  List.map byteZ msg ++ 0x80 :: List.repeat 0 zeros ++ be_bytes 8 (8 * len).

Fixpoint words (fuel : nat) (bs : list Z) : list Z :=
  match fuel, bs with
  | S f, a :: b :: c :: d :: rest =>
      (Z.shiftl a 24 + Z.shiftl b 16 + Z.shiftl c 8 + d) :: words f rest
  | _, _ => []
  end.

(** Message schedule: [w] holds W(t-1), W(t-2), ..., most recent first. *)
Fixpoint schedule (n : nat) (w : list Z) : list Z :=
  match n with
  | O => w
  | S n' =>
      let wt := add32 (add32 (ssig1 (List.nth 1 w 0)) (List.nth 6 w 0))
                      (add32 (ssig0 (List.nth 14 w 0)) (List.nth 15 w 0)) in
      schedule n' (wt :: w)
  end.

Definition round (s : list Z) (kw : Z * Z) : list Z :=
  match s with
  | [a; b; c; d; e; f; g; h] =>
      let t1 := add32 (add32 (add32 h (bsig1 e)) (add32 (Ch e f g) (fst kw)))
                      (snd kw) in
      let t2 := add32 (bsig0 a) (Maj a b c) in
      [add32 t1 t2; a; b; c; add32 d t1; e; f; g]
  | _ => s
  end.

Fixpoint zip_add (x y : list Z) : list Z :=
  match x, y with
  | a :: x', b :: y' => add32 a b :: zip_add x' y'
  | _, _ => []
  end.

Definition compress (h : list Z) (block : list Z) : list Z :=
  let w := List.rev (schedule 48 (List.rev block)) in
  zip_add h (List.fold_left round (List.combine K w) h).

Fixpoint blocks (fuel : nat) (ws : list Z) (h : list Z) : list Z :=
  match fuel with
  | O => h
  | S f =>
      match ws with
      | [] => h
      | _ => blocks f (List.skipn 16 ws) (compress h (List.firstn 16 ws))
      end
  end.

Definition digest (msg : bytes) : bytes :=
  let p := pad msg in
  let ws := words (List.length p) p in
  let h := blocks (List.length ws) ws H0 in
  List.flat_map
    (fun x => List.map (fun z => match Byte.of_N (Z.to_N z) with
                                 | Some b => b
                                 | None => x00
                                 end) (be_bytes 4 x))
    (List.firstn 7 h).

(** [hashlib.sha224(msg).hexdigest()] *)
Definition hexdigest (msg : bytes) : string := decode (hexlify (digest msg)).

End SHA224.

(* ===================================================================== *)
(** * What the code takes from outside the shown files *)
(* ===================================================================== *)

(** [INVALID_WORKER] is a constant of [dc_federated.backend._constants],
    [message_seriously_wrong] a helper of [backend_utils]; neither file is
    among the sources.  [crypto_sign_open smessage pk] is libsodium's check
    of a signed message (64 signature bytes followed by the payload) under
    the verify key [pk]: the payload when the signature is good, [None]
    where PyNaCl raises [BadSignatureError]. *)
Class Externals : Type := {
  INVALID_WORKER : string;
  message_seriously_wrong : string -> string;
  crypto_sign_open : bytes -> bytes -> option bytes
}.

(* ===================================================================== *)
(** * nacl.signing.VerifyKey *)
(* ===================================================================== *)

Definition crypto_sign_PUBLICKEYBYTES : nat := 32.

(** [VerifyKey(key, encoder=HexEncoder)]: the object is its 32 key bytes. *)
Definition VerifyKey (key : bytes) : result bytes :=
  let* k := HexEncoder_decode key in
  if Nat.eqb (List.length k) crypto_sign_PUBLICKEYBYTES then Ret k
  else Raise ValueError.

(** [vk.verify(smessage, encoder=HexEncoder)] *)
Definition VerifyKey_verify `{Externals} (vk : bytes) (smessage : bytes)
  : result bytes :=
  let* s := HexEncoder_decode smessage in
  match crypto_sign_open s vk with
  | Some m => Ret m
  | None => Raise BadSignatureError
  end.

(* ===================================================================== *)
(** * _worker_manager.py: class WorkerManager *)
(* ===================================================================== *)

(** The attributes set in [__init__].  [public_keys_db] is the TinyDB table
    of [{PUBLIC_KEY_STR: key}] documents, kept as the list of their keys in
    insertion order; [None] when no database was opened. *)
Record WorkerManager : Type := mkWorkerManager {
  public_keys : gmap string bytes;
  allowed_workers : list string;
  registered_workers : gmap string bool;
  public_keys_db : option (list string);
  do_public_key_auth : bool
}.

Definition set_public_keys (self : WorkerManager) (pk : gmap string bytes) :=
  mkWorkerManager pk (allowed_workers self) (registered_workers self)
                  (public_keys_db self) (do_public_key_auth self).
Definition set_allowed_workers (self : WorkerManager) (aw : list string) :=
  mkWorkerManager (public_keys self) aw (registered_workers self)
                  (public_keys_db self) (do_public_key_auth self).
Definition set_registered_workers (self : WorkerManager) (rw : gmap string bool) :=
  mkWorkerManager (public_keys self) (allowed_workers self) rw
                  (public_keys_db self) (do_public_key_auth self).
Definition set_public_keys_db (self : WorkerManager) (db : option (list string)) :=
  mkWorkerManager (public_keys self) (allowed_workers self)
                  (registered_workers self) db (do_public_key_auth self).

(** [x in l] for a Python list of strings. *)
Definition py_in (x : string) (l : list string) : bool := bool_decide (x ∈ l).

(** [l.remove(x)]: drops the first occurrence (the code calls it only
    after [x in l]). *)
Fixpoint py_list_remove (x : string) (l : list string) : list string :=
  match l with
  | [] => []
  | y :: l' => if decide (x = y) then l' else y :: py_list_remove x l'
  end.

(** The four [return] statements of the add operations. *)
Inductive add_result : Type :=
| InvalidKey                             (* return INVALID_WORKER, False *)
| SeriouslyWrong (err : string)          (* return err, False *)
| Added (worker_id : string)             (* return worker_id, True *)
| AddedPreviously (worker_id : string).  (* return worker_id, False *)

Section WorkerManagerMethods.
Context `{Externals}.

(** The [(str, bool)] tuple that Python returns. *)
Definition py_tuple (r : add_result) : string * bool :=
  match r with
  | InvalidKey => (INVALID_WORKER, false)
  | SeriouslyWrong err => (err, false)
  | Added worker_id => (worker_id, true)
  | AddedPreviously worker_id => (worker_id, false)
  end.

(** The state [__init__] starts from, before any key is loaded. *)
Definition new_manager (server_mode_safe : bool) (db : option (list string))
  : WorkerManager :=
  mkWorkerManager ∅ [] ∅ (if server_mode_safe then db else None)
                  server_mode_safe.

Definition add_public_key (self : WorkerManager) (public_key_str : string)
  : WorkerManager * bool :=
  if negb (do_public_key_auth self) then (self, true)
  else
    match public_keys self !! public_key_str with
    | None =>
        match VerifyKey (encode public_key_str) with
        | Ret vk =>
            (set_public_keys self (<[public_key_str := vk]> (public_keys self)),
             true)
        | Raise _ => (self, false)          (* except Exception *)
        end
    | Some _ => (self, true)
    end.

Definition delete_public_key (self : WorkerManager) (public_key_str : string)
  : WorkerManager * bool :=
  if negb (do_public_key_auth self) then (self, true)
  else
    match public_keys self !! public_key_str with
    | Some _ =>
        (set_public_keys self (delete public_key_str (public_keys self)), true)
    | None => (self, true)
    end.

Definition get_keys (self : WorkerManager) : list string :=
  (map_to_list (public_keys self)).*1.

(** [now] is [str(time.time())], the text of the clock reading the call
    takes; it is looked at only when authentication is off. *)
Definition generate_id_for_worker (self : WorkerManager) (now : string)
    (public_key_str : string) : string :=
  if do_public_key_auth self then public_key_str
  else SHA224.hexdigest (encode now) +:+ "_unauthenticated".

Definition authenticate_worker (self : WorkerManager)
    (public_key_str signed_message : string) : result bool :=
  if negb (do_public_key_auth self) then Ret true
  else
    match public_keys self !! public_key_str with
    | None => Ret false
    | Some vk =>
        match VerifyKey_verify vk (encode signed_message) with
        | Ret _ => Ret true
        | Raise BadSignatureError => Ret false   (* except BadSignatureError *)
        | Raise e => Raise e
        end
    end.

Definition _add_worker (self : WorkerManager) (now public_key_str : string)
  : WorkerManager * add_result :=
  let worker_id := generate_id_for_worker self now public_key_str in
  if do_public_key_auth self
     && bool_decide (public_keys self !! public_key_str = None)
  then
    (self, SeriouslyWrong
             (message_seriously_wrong
                "trying to add worker without adding worker first"))
  else if negb (py_in worker_id (allowed_workers self)) then
    let self1 := set_allowed_workers self (allowed_workers self ++ [worker_id])%list in
    let self2 :=
      set_registered_workers self1
        (<[worker_id := false]> (registered_workers self1)) in
    let self3 :=
      match public_keys_db self2 with
      | Some docs => set_public_keys_db self2 (Some (docs ++ [public_key_str])%list)
      | None => self2
      end in
    (self3, Added worker_id)
  else (self, AddedPreviously worker_id).

Definition authenticate_and_add_worker (self : WorkerManager)
    (now public_key_str signed_phrase : string)
  : result (WorkerManager * add_result) :=
  let* ok := authenticate_worker self public_key_str signed_phrase in
  if ok then Ret (_add_worker self now public_key_str)
  else Ret (self, InvalidKey).

Definition add_worker (self : WorkerManager) (now public_key_str : string)
  : WorkerManager * add_result :=
  if do_public_key_auth self then
    let '(self1, ok) := add_public_key self public_key_str in
    if negb ok then (self1, InvalidKey)
    else _add_worker self1 now public_key_str
  else _add_worker self now public_key_str.

(** [self.registered_workers[worker_id]] raises [KeyError] on a missing key. *)
Definition set_registration_status (self : WorkerManager) (worker_id : string)
    (should_register : bool) : result (WorkerManager * string) :=
  if py_in worker_id (allowed_workers self) then
    match registered_workers self !! worker_id with
    | None => Raise KeyError
    | Some old_status =>
        Ret (set_registered_workers self
               (<[worker_id := should_register]> (registered_workers self)),
             worker_id)
    end
  else Ret (self, INVALID_WORKER).

Definition remove_worker (self : WorkerManager) (worker_id : string)
  : WorkerManager * string :=
  if py_in worker_id (allowed_workers self) then
    let self1 :=
      set_allowed_workers self (py_list_remove worker_id (allowed_workers self)) in
    let self2 := fst (delete_public_key self1 worker_id) in
    let self3 :=
      match public_keys_db self2 with
      | Some docs =>
          set_public_keys_db self2
            (Some (List.filter (fun k => negb (String.eqb k worker_id)) docs))
      | None => self2
      end in
    (self3, worker_id)
  else (self, INVALID_WORKER).

Definition is_worker_allowed (self : WorkerManager) (worker_id : string) : bool :=
  py_in worker_id (allowed_workers self).

Definition is_worker_registered (self : WorkerManager) (worker_id : string)
  : bool :=
  match registered_workers self !! worker_id with
  | Some status => status
  | None => false
  end.

(** [__init__]: in safe mode the keys of the previous session and of the key
    file, duplicates dropped, are added one by one; [keys_to_load] lists them
    in the order the loop visits them.  In unsafe mode a key file is an
    error. *)
Definition WorkerManager_init (server_mode_safe : bool)
    (key_list_file : option (list string)) (db : option (list string))
    (keys_to_load : list string) : result WorkerManager :=
  if negb server_mode_safe then
    match key_list_file with
    | Some _ => Raise ValueError
    | None => Ret (new_manager false None)
    end
  else
    Ret (List.fold_left (fun self key => fst (add_worker self "" key))
           keys_to_load
           (new_manager true (option_map (fun _ => []) db))).

End WorkerManagerMethods.

(* ===================================================================== *)
(** * dcf_server.py: class DCFServer *)
(* ===================================================================== *)

(** Further names [dcf_server.py] uses that the shown files do not define:
    three constants of [_constants], and [verify_challenge], a method the
    server calls on the worker manager (lines 505 and 572) that the shown
    [WorkerManager] lacks.  It is taken as a read-only check on the
    manager's state. *)
Class ServerExternals `{Externals} : Type := {
  UNREGISTERED_WORKER : string;
  GLOBAL_MODEL_UPDATED_STRING : string;
  WID_LEN : nat;
  verify_challenge : WorkerManager -> string -> string -> result bool
}.

(** What is put on a [gevent.queue.Queue] that serves as a response body. *)
Inductive qitem : Type :=
| QStr (s : string)
| QStopIteration.

(** A [Greenlet] running [check_model_version_updated worker_id body
    last_worker_model_version].  [g_alive] holds from creation until the
    greenlet returns or is killed. *)
Record greenlet : Type := mkGreenlet {
  g_worker_id : string;
  g_body : nat;
  g_last_version : string;
  g_alive : bool
}.

(** A greenlet once it is dead. *)
Definition killed (gr : greenlet) : greenlet :=
  mkGreenlet (g_worker_id gr) (g_body gr) (g_last_version gr) false.

(** What the application's callbacks do when a greenlet of
    [check_model_version_updated] takes a turn. *)
Inductive poll_answer : Type :=
| StillMostRecent      (* is_global_model_most_recent(...) is True *)
| VersionChanged       (* it is False and return_global_model_callback returns *)
| CallbackRaised (e : exn).   (* one of the two raises: the greenlet dies *)

(** Calls made to the application's callbacks, oldest first. *)
Inductive callback_call : Type :=
| CallRegister (worker_id : string)
| CallUnregister (worker_id : string)
| CallReturnGlobalModel.

(** The attributes of [DCFServer] the handlers use.  Queues and greenlets
    are objects with identity: [queues] and [greenlets] map a reference to
    the object's content, [next_ref] is the next unused reference, and
    [model_version_req_dict] holds pairs [(g, body)] of references. *)
Record DCFServer : Type := mkDCFServer {
  worker_manager : WorkerManager;
  model_version_req_dict : gmap string (list (nat * nat));
  greenlets : gmap nat greenlet;
  queues : gmap nat (list qitem);
  next_ref : nat;
  callback_log : list callback_call
}.

Definition set_worker_manager (self : DCFServer) (wm : WorkerManager) :=
  mkDCFServer wm (model_version_req_dict self) (greenlets self) (queues self)
              (next_ref self) (callback_log self).
Definition set_model_version_req_dict (self : DCFServer)
    (d : gmap string (list (nat * nat))) :=
  mkDCFServer (worker_manager self) d (greenlets self) (queues self)
              (next_ref self) (callback_log self).
Definition set_greenlets (self : DCFServer) (gs : gmap nat greenlet) :=
  mkDCFServer (worker_manager self) (model_version_req_dict self) gs
              (queues self) (next_ref self) (callback_log self).
Definition set_queues (self : DCFServer) (qs : gmap nat (list qitem)) :=
  mkDCFServer (worker_manager self) (model_version_req_dict self)
              (greenlets self) qs (next_ref self) (callback_log self).
Definition set_next_ref (self : DCFServer) (n : nat) :=
  mkDCFServer (worker_manager self) (model_version_req_dict self)
              (greenlets self) (queues self) n (callback_log self).
Definition log_call (self : DCFServer) (c : callback_call) :=
  mkDCFServer (worker_manager self) (model_version_req_dict self)
              (greenlets self) (queues self) (next_ref self)
              (callback_log self ++ [c])%list.

(** What a handler returns to the transport. *)
Inductive response : Type :=
| RespText (s : string)                        (* a plain string *)
| RespError (msg : string)                     (* {ERROR_MESSAGE_KEY: msg} *)
| RespSuccess (worker_id : string) (status : option bool)
| RespBody (body : nat)                        (* the queue, streamed *)
| RespExn (e : exn).                           (* str(e) of a caught e *)

Section DCFServerMethods.
Context `{ServerExternals}.

(** [DCFServer.__init__] around an already built worker manager. *)
Definition new_server (wm : WorkerManager) : DCFServer :=
  mkDCFServer wm ∅ ∅ ∅ 0 [].

(** [worker_id[0:WID_LEN]] *)
Definition short_id (worker_id : string) : string :=
  substring 0 WID_LEN worker_id.

(** [body.put(item)] *)
Definition queue_put (self : DCFServer) (body : nat) (item : qitem) : DCFServer :=
  set_queues self
    (<[body := (default [] (queues self !! body) ++ [item])%list]> (queues self)).

(** [g.kill()], and the end of a greenlet's function. *)
Definition greenlet_kill (self : DCFServer) (g : nat) : DCFServer :=
  set_greenlets self (alter killed g (greenlets self)).

(** [self.model_version_req_dict[worker_id].pop()] on a non-empty list. *)
Definition req_dict_pop (self : DCFServer) (worker_id : string) : DCFServer :=
  set_model_version_req_dict self
    (alter (fun l => removelast l) worker_id (model_version_req_dict self)).

Definition add_and_register_worker (self : DCFServer)
    (now public_key_str signed_phrase : string) : DCFServer * result response :=
  match authenticate_and_add_worker (worker_manager self) now public_key_str
          signed_phrase with
  | Raise e => (self, Raise e)
  | Ret (wm, r) =>
      let self1 := set_worker_manager self wm in
      let worker_id := fst (py_tuple r) in
      if String.eqb worker_id INVALID_WORKER then (self1, Ret (RespText worker_id))
      else if negb (is_worker_registered wm worker_id) then
        match set_registration_status wm worker_id true with
        | Raise e => (self1, Raise e)
        | Ret (wm', _) =>
            (log_call (set_worker_manager self1 wm') (CallRegister worker_id),
             Ret (RespText worker_id))
        end
      else (self1, Ret (RespText worker_id))
  end.

Definition admin_add_worker (self : DCFServer) (now public_key_str : string)
    (registration_status : bool) : DCFServer * result response :=
  let '(wm, r) := add_worker (worker_manager self) now public_key_str in
  let self1 := set_worker_manager self wm in
  let '(worker_id, success) := py_tuple r in
  if String.eqb worker_id INVALID_WORKER then
    (self1, Ret (RespError
      ("Unable to validate public key (short) " +:+ short_id public_key_str
       +:+ " - worker not added.")))
  else if negb success then
    (self1, Ret (RespError
      ("Worker " +:+ short_id worker_id +:+ " already exists.")))
  else
    match set_registration_status wm worker_id registration_status with
    | Raise e => (self1, Raise e)
    | Ret (wm', worker_id') =>
        let self2 := set_worker_manager self1 wm' in
        if String.eqb worker_id' INVALID_WORKER then
          (self2, Ret (RespError
            (message_seriously_wrong
               "worker was just added but now being reported as not added")))
        else
          let self3 :=
            if registration_status then log_call self2 (CallRegister worker_id')
            else self2 in
          (self3, Ret (RespSuccess worker_id' (Some registration_status)))
    end.

Definition admin_delete_worker (self : DCFServer) (worker_id : string)
  : DCFServer * result response :=
  let was_registered := is_worker_registered (worker_manager self) worker_id in
  match set_registration_status (worker_manager self) worker_id false with
  | Raise e => (self, Raise e)
  | Ret (wm, worker_id1) =>
      let self1 := set_worker_manager self wm in
      let self2 :=
        if negb (String.eqb worker_id1 INVALID_WORKER) && was_registered
        then log_call self1 (CallUnregister worker_id1)
        else self1 in
      let '(wm', worker_id2) := remove_worker wm worker_id1 in
      let self3 := set_worker_manager self2 wm' in
      if String.eqb worker_id2 INVALID_WORKER then
        (self3, Ret (RespError
          ("Attempt to remove unknown worker " +:+ short_id worker_id2 +:+ ".")))
      else (self3, Ret (RespSuccess worker_id2 None))
  end.

Definition admin_set_worker_status (self : DCFServer) (worker_id : string)
    (registration_status : bool) : DCFServer * result response :=
  let was_registered := is_worker_registered (worker_manager self) worker_id in
  match set_registration_status (worker_manager self) worker_id
          registration_status with
  | Raise e => (self, Raise e)
  | Ret (wm, worker_id1) =>
      let self1 := set_worker_manager self wm in
      if String.eqb worker_id1 INVALID_WORKER then
        (self1, Ret (RespError
          ("Attempt at changing worker status failed - please ensure this worker was added: "
           +:+ short_id worker_id1 +:+ ".")))
      else
        let self2 :=
          if negb was_registered && registration_status
          then log_call self1 (CallRegister worker_id1) else self1 in
        let self3 :=
          if was_registered && negb registration_status
          then log_call self2 (CallUnregister worker_id1) else self2 in
        (self3, Ret (RespSuccess worker_id1 (Some registration_status)))
  end.

(** The text a superseded request receives. *)
Definition superseded_msg (worker_id : string) : string :=
  "New request for global model version change notification received from "
  +:+ short_id worker_id +:+ " - existing request terminated.".

(** One turn of the greenlet [g] in [check_model_version_updated]: it
    evaluates [is_global_model_most_recent] and either goes back to sleep
    or delivers and cleans up.  A greenlet that is dead (or unknown) does
    not run. *)
Definition check_model_version_updated (self : DCFServer) (g : nat)
    (answer : poll_answer) : DCFServer :=
  match greenlets self !! g with
  | None => self
  | Some gr =>
      if negb (g_alive gr) then self
      else
      match answer with
      | StillMostRecent => self                     (* gevent.sleep *)
      | CallbackRaised _ => greenlet_kill self g
      | VersionChanged =>
        let worker_id := g_worker_id gr in
        let self1 := log_call self CallReturnGlobalModel in
        let self2 := queue_put self1 (g_body gr) (QStr GLOBAL_MODEL_UPDATED_STRING) in
        let self3 := queue_put self2 (g_body gr) QStopIteration in
        let self4 :=
          match model_version_req_dict self3 !! worker_id with
          | None => self3                            (* KeyError ends the greenlet *)
          | Some l =>
              if (0 <? List.length l)%nat then req_dict_pop self3 worker_id
              else self3
          end in
        greenlet_kill self4 g
      end
  end.

(** [notify_me_if_gm_version_updated], after [validate_input] accepted the
    request.  The handler's [except Exception] turns an exception of
    [verify_challenge] into a string response. *)
Definition notify_me_if_gm_version_updated (self : DCFServer)
    (worker_id last_worker_model_version signed_phrase : string)
  : DCFServer * response :=
  if negb (is_worker_allowed (worker_manager self) worker_id) then
    (self, RespText INVALID_WORKER)
  else
    match verify_challenge (worker_manager self) worker_id signed_phrase with
    | Raise e => (self, RespExn e)
    | Ret false => (self, RespText INVALID_WORKER)
    | Ret true =>
        if negb (is_worker_registered (worker_manager self) worker_id) then
          (self, RespText UNREGISTERED_WORKER)
        else
          (* in case a new request is made, terminate the old one *)
          let self1 :=
            match model_version_req_dict self !! worker_id with
            | Some l =>
                match last l with
                | Some (old_g, old_b) =>
                    let s1 := req_dict_pop self worker_id in
                    let s2 := queue_put s1 old_b (QStr (superseded_msg worker_id)) in
                    let s3 := queue_put s2 old_b QStopIteration in
                    greenlet_kill s3 old_g
                | None => self
                end
            | None => self
            end in
          let body := next_ref self1 in
          let g := next_ref self1 in
          let self2 := set_queues self1 (<[body := []]> (queues self1)) in
          let self3 :=
            set_greenlets self2
              (<[g := mkGreenlet worker_id body last_worker_model_version true]>
                 (greenlets self2)) in
          let self4 := set_next_ref self3 (S (next_ref self3)) in
          let self5 :=
            set_model_version_req_dict self4
              (<[worker_id :=
                   (default [] (model_version_req_dict self4 !! worker_id)
                    ++ [(g, body)])%list]> (model_version_req_dict self4)) in
          (self5, RespBody body)
    end.

End DCFServerMethods.

(** The requests and scheduler turns that drive a server. *)
Inductive event : Type :=
| EvRegister (now public_key_str signed_phrase : string)
| EvAdminAdd (now public_key_str : string) (registration_status : bool)
| EvAdminDelete (worker_id : string)
| EvAdminSetStatus (worker_id : string) (registration_status : bool)
| EvNotify (worker_id last_worker_model_version signed_phrase : string)
| EvPoll (g : nat) (answer : poll_answer).

Section DCFServerRuns.
Context `{ServerExternals}.

(** The server after one event; handlers run to completion one at a time. *)
Definition serve (self : DCFServer) (ev : event) : DCFServer :=
  match ev with
  | EvRegister now k sp => fst (add_and_register_worker self now k sp)
  | EvAdminAdd now k st => fst (admin_add_worker self now k st)
  | EvAdminDelete w => fst (admin_delete_worker self w)
  | EvAdminSetStatus w st => fst (admin_set_worker_status self w st)
  | EvNotify w v sp => fst (notify_me_if_gm_version_updated self w v sp)
  | EvPoll g answer => check_model_version_updated self g answer
  end.

Definition run (self : DCFServer) (evs : list event) : DCFServer :=
  List.fold_left serve evs self.

End DCFServerRuns.

(* ===================================================================== *)
(** * zmq_interface.py and zqm_interface.py: the two process bridges *)
(* ===================================================================== *)

Module Bridge.

(** The Python objects that cross the bridge in the modelled calls. *)
Inductive pyval : Type :=
| PyNone
| PyBool (b : bool)
| PyInt (z : Z)
| PyStr (s : string)
| PyBytes (b : bytes).

Definition quote1 : byte := "'"%byte.
Definition quote2 : byte := x22.
Definition backslash : byte := "\"%byte.

(** [repr] of a [bytes] object. *)
Definition repr_byte (q : byte) (c : byte) : bytes :=
  let n := Byte.to_N c in
  if Byte.eqb c q || Byte.eqb c backslash then [backslash; c]
  else if (n =? 9)%N then [backslash; "t"%byte]
  else if (n =? 10)%N then [backslash; "n"%byte]
  else if (n =? 13)%N then [backslash; "r"%byte]
  else if (n <? 32)%N || (127 <=? n)%N then
    [backslash; "x"%byte; hex_digit (n / 16); hex_digit (n mod 16)]
  else [c].

Definition repr_bytes (b : bytes) : string :=
  let has c := existsb (Byte.eqb c) b in
  let q := if has quote1 && negb (has quote2) then quote2 else quote1 in
  decode ("b"%byte :: q :: List.flat_map (repr_byte q) b ++ [q])%list.

(** [str(obj)] *)
Definition py_str (v : pyval) : string :=
  match v with
  | PyNone => "None"
  | PyBool true => "True"
  | PyBool false => "False"
  | PyInt z => NilZero.string_of_int (Z.to_int z)
  | PyStr s => s
  | PyBytes b => repr_bytes b
  end.

Definition is_space (c : byte) : bool :=
  let n := Byte.to_N c in
  ((9 <=? n) && (n <=? 13) || (28 <=? n) && (n <=? 32))%N.

Definition digit_val (c : byte) : option Z :=
  let n := Byte.to_N c in
  if ((48 <=? n) && (n <=? 57))%N then Some (Z.of_N n - 48)%Z else None.

Definition underscore : byte := "_"%byte.

(** The digits of a decimal literal, one underscore allowed between two
    digits; [acc] is the value read so far. *)
Fixpoint int_digits (acc : Z) (s : bytes) : option Z :=
  match s with
  | [] => Some acc
  | c :: rest =>
      if Byte.eqb c underscore then
        match rest with
        | d :: rest' =>
            match digit_val d with
            | Some v => int_digits (10 * acc + v)%Z rest'
            | None => None
            end
        | [] => None
        end
      else
        match digit_val c with
        | Some v => int_digits (10 * acc + v)%Z rest
        | None => None
        end
  end.

Fixpoint lstrip (s : bytes) : bytes :=
  match s with
  | c :: rest => if is_space c then lstrip rest else s
  | [] => []
  end.

Definition strip (s : bytes) : bytes := List.rev (lstrip (List.rev (lstrip s))).

(** A decimal literal: a digit, then [int_digits]. *)
Definition int_unsigned (t : bytes) : option Z :=
  match t with
  | c :: rest =>
      match digit_val c with
      | Some v => int_digits v rest
      | None => None
      end
  | [] => None
  end.

Definition int_signed (t : bytes) : option Z :=
  match t with
  | c :: rest =>
      if Byte.eqb c "-"%byte then option_map Z.opp (int_unsigned rest)
      else if Byte.eqb c "+"%byte then int_unsigned rest
      else int_unsigned t
  | [] => None
  end.

(** [int(s)] for a [str] of ASCII text: surrounding white space, a sign,
    decimal digits.  Anything else is a [ValueError]. *)
Definition py_int (s : string) : result Z :=
  match int_signed (strip (encode s)) with
  | Some z => Ret z
  | None => Raise ValueError
  end.

(** A frame on the wire: plain bytes, or the pickle of an object (what
    [send_pyobj] writes and [recv_pyobj] reads back). *)
Inductive frame : Type :=
| FrameBytes (b : bytes)
| FramePickle (obj : pyval).

(** [socket.send(data)]: pyzmq takes bytes-like data only. *)
Definition socket_send (data : pyval) : result frame :=
  match data with
  | PyBytes b => Ret (FrameBytes b)
  | _ => Raise TypeError
  end.

(** [socket.send_string(u)] *)
Definition socket_send_string (u : pyval) : result frame :=
  match u with
  | PyStr s => Ret (FrameBytes (encode s))
  | _ => Raise TypeError
  end.

(** [socket.send_pyobj(obj)] *)
Definition socket_send_pyobj (obj : pyval) : result frame :=
  Ret (FramePickle obj).

(** [socket.send_multipart(parts)]: every part has to be bytes-like. *)
Fixpoint socket_send_multipart (parts : list pyval) : result (list bytes) :=
  match parts with
  | [] => Ret []
  | PyBytes b :: rest =>
      let* r := socket_send_multipart rest in Ret (b :: r)
  | _ :: _ => Raise TypeError
  end.

(** [socket.recv()] and [socket.recv_pyobj()] on the reply frame.  Reading
    a frame with the method that does not match how it was written does
    not occur between the two halves of one file; it is made an error. *)
Definition socket_recv (f : frame) : result pyval :=
  match f with
  | FrameBytes b => Ret (PyBytes b)
  | FramePickle _ => Raise UnpicklingError
  end.

Definition socket_recv_pyobj (f : frame) : result pyval :=
  match f with
  | FramePickle obj => Ret obj
  | FrameBytes _ => Raise UnpicklingError
  end.

(** The callbacks and arguments an interface model is built with. *)
Record callbacks : Type := mkCallbacks {
  register_worker_callback : pyval -> result pyval;
  unregister_worker_callback : pyval -> result pyval;
  return_global_model_callback : result pyval;
  is_global_model_most_recent : pyval -> result pyval;
  receive_worker_update_callback : pyval -> pyval -> result pyval;
  server_subprocess_args : pyval
}.

(** [message[i]] *)
Definition item (message : list bytes) (i : nat) : result bytes :=
  match message !! i with
  | Some b => Ret b
  | None => Raise IndexError
  end.

Definition tag_is (t : bytes) (name : string) : bool :=
  bool_decide (t = encode name).

(** What the front-end call ends in. *)
Inductive outcome : Type :=
| Returned (request : list bytes) (v : pyval)
    (* the request went out and the call returned [v] *)
| FrontRaised (e : exn)
    (* the call raised before anything was sent *)
| FrontRaisedAfter (request : list bytes) (e : exn)
    (* the request went out, a reply came, reading it raised *)
| NoReply (request : list bytes) (e : option exn).
    (* the request went out; the back end sent no reply (it raised [e], or
       did not know the tag), so the caller stays in [recv] *)

Definition exchange (request : result (list bytes))
    (receive : list bytes -> result (option frame))
    (recv : frame -> result pyval) : outcome :=
  match request with
  | Raise e => FrontRaised e
  | Ret req =>
      match receive req with
      | Raise e => NoReply req (Some e)
      | Ret None => NoReply req None
      | Ret (Some f) =>
          match recv f with
          | Ret v => Returned req v
          | Raise e => FrontRaisedAfter req e
          end
      end
  end.

(** ** zmq_interface.py *)
Module ZMQ.

(** [ZMQInterfaceModel.receive]: the reply frame written, if any. *)
Definition receive (cb : callbacks) (message : list bytes)
  : result (option frame) :=
  let* m0 := item message 0 in
  if tag_is m0 "server_args_request" then
    option_map_result (socket_send_pyobj (server_subprocess_args cb))
  else if tag_is m0 "register_worker" then
    let* m1 := item message 1 in
    let* _ := register_worker_callback cb (PyBytes m1) in
    option_map_result (socket_send (PyBytes (encode "1")))
  else if tag_is m0 "unregister_worker" then
    let* m1 := item message 1 in
    let* _ := unregister_worker_callback cb (PyBytes m1) in
    option_map_result (socket_send (PyBytes (encode "1")))
  else if tag_is m0 "return_global_model" then
    let* global_model := return_global_model_callback cb in
    option_map_result (socket_send_pyobj global_model)
  else if tag_is m0 "is_global_model_most_recent" then
    let* m1 := item message 1 in
    let* n := py_int (decode m1) in
    let* most_recent := is_global_model_most_recent cb (PyInt n) in
    option_map_result (socket_send_pyobj most_recent)
  else if tag_is m0 "receive_worker_update" then
    let* m1 := item message 1 in
    let* m2 := item message 2 in
    let* status := receive_worker_update_callback cb (PyBytes m1) (PyBytes m2) in
    option_map_result (socket_send_string status)
  else Ret None.

(** [ZQMInterfaceServer._send] *)
Definition _send (args : list pyval) : result (list bytes) :=
  socket_send_multipart args.

(** [ZQMInterfaceServer.is_global_model_most_recent_send] against a model
    built with [cb]. *)
Definition is_global_model_most_recent_send (cb : callbacks)
    (model_version : pyval) : outcome :=
  exchange
    (_send [PyBytes (encode "is_global_model_most_recent");
            PyBytes (encode (py_str model_version))])
    (receive cb) socket_recv_pyobj.

End ZMQ.

(** ** zqm_interface.py *)
Module ZQM.

(** [ZQMInterfaceModel.receive] *)
Definition receive (cb : callbacks) (message : list bytes)
  : result (option frame) :=
  let* m0 := item message 0 in
  if tag_is m0 "server_args_request" then
    option_map_result (socket_send_pyobj (server_subprocess_args cb))
  else if tag_is m0 "register_worker" then
    let* m1 := item message 1 in
    let* _ := register_worker_callback cb (PyBytes m1) in
    option_map_result (socket_send (PyBytes (encode "1")))
  else if tag_is m0 "unregister_worker" then
    let* m1 := item message 1 in
    let* _ := unregister_worker_callback cb (PyBytes m1) in
    option_map_result (socket_send (PyBytes (encode "1")))
  else if tag_is m0 "return_global_model" then
    let* global_model := return_global_model_callback cb in
    option_map_result (socket_send_pyobj global_model)
  else if tag_is m0 "is_global_model_most_recent" then
    let* m1 := item message 1 in
    let* most_recent := is_global_model_most_recent cb (PyBytes m1) in
    option_map_result (socket_send most_recent)
  else if tag_is m0 "receive_worker_update" then
    let* m1 := item message 1 in
    let* m2 := item message 2 in
    let* status := receive_worker_update_callback cb (PyBytes m1) (PyBytes m2) in
    option_map_result (socket_send_string status)
  else Ret None.

(** [ZQMInterfaceServer._send] *)
Definition _send (args : list pyval) : result (list bytes) :=
  socket_send_multipart args.

(** [ZQMInterfaceServer.is_global_model_most_recent_send] *)
Definition is_global_model_most_recent_send (cb : callbacks)
    (model_version : pyval) : outcome :=
  exchange
    (_send [PyBytes (encode "is_global_model_most_recent"); model_version])
    (receive cb) socket_recv.

End ZQM.

End Bridge.

Module BridgeValues.
Import Bridge.

(** The value [int_digits] reads from the digits of [d] after [acc]. *)
Fixpoint uint_val (acc : Z) (d : Decimal.uint) : Z :=
  match d with
  | Decimal.Nil => acc
  | Decimal.D0 d' => uint_val (10 * acc + 0) d'
  | Decimal.D1 d' => uint_val (10 * acc + 1) d'
  | Decimal.D2 d' => uint_val (10 * acc + 2) d'
  | Decimal.D3 d' => uint_val (10 * acc + 3) d'
  | Decimal.D4 d' => uint_val (10 * acc + 4) d'
  | Decimal.D5 d' => uint_val (10 * acc + 5) d'
  | Decimal.D6 d' => uint_val (10 * acc + 6) d'
  | Decimal.D7 d' => uint_val (10 * acc + 7) d'
  | Decimal.D8 d' => uint_val (10 * acc + 8) d'
  | Decimal.D9 d' => uint_val (10 * acc + 9) d'
  end.

End BridgeValues.

(* ===================================================================== *)
(** * Call sequences on a worker manager *)
(* ===================================================================== *)

(** The four mutating calls of the registry. *)
Inductive wm_call : Type :=
| CallAddWorker (now public_key_str : string)
| CallAuthenticateAndAdd (now public_key_str signed_phrase : string)
| CallSetRegistrationStatus (worker_id : string) (should_register : bool)
| CallRemoveWorker (worker_id : string).

Section WorkerManagerRuns.
Context `{Externals}.

(** The manager after a call; a call that raises leaves it as it was (the
    two calls that can raise do so before they assign anything). *)
Definition wm_step (self : WorkerManager) (c : wm_call) : WorkerManager :=
  match c with
  | CallAddWorker now k => fst (add_worker self now k)
  | CallAuthenticateAndAdd now k sp =>
      match authenticate_and_add_worker self now k sp with
      | Ret (self', _) => self'
      | Raise _ => self
      end
  | CallSetRegistrationStatus w b =>
      match set_registration_status self w b with
      | Ret (self', _) => self'
      | Raise _ => self
      end
  | CallRemoveWorker w => fst (remove_worker self w)
  end.

(** States reached from a fresh manager by calls that each satisfy
    [allowed_call] in the state they are made in. *)
Inductive reachable_by (allowed_call : WorkerManager -> wm_call -> Prop)
  : WorkerManager -> Prop :=
| reach_new (server_mode_safe : bool) (db : option (list string)) :
    reachable_by allowed_call (new_manager server_mode_safe db)
| reach_step (self : WorkerManager) (c : wm_call) :
    reachable_by allowed_call self ->
    allowed_call self c ->
    reachable_by allowed_call (wm_step self c).

(** Any sequence of the four calls. *)
Definition reachable : WorkerManager -> Prop :=
  reachable_by (fun _ _ => True).

(** [remove_worker] called only on a worker whose status is false, which
    is how [DCFServer.admin_delete_worker] calls it: it sets the status to
    false first. *)
Definition removes_unregistered (self : WorkerManager) (c : wm_call) : Prop :=
  match c with
  | CallRemoveWorker w => is_worker_registered self w = false
  | _ => True
  end.

Definition reachable_unregistering : WorkerManager -> Prop :=
  reachable_by removes_unregistered.

(** What holds of the tables in every reachable state. *)
Record tables_consistent (self : WorkerManager) : Prop := {
  allowed_nodup : NoDup (allowed_workers self);
  allowed_have_status :
    forall w, w ∈ allowed_workers self -> is_Some (registered_workers self !! w);
  allowed_have_key :
    do_public_key_auth self = true ->
    forall w, w ∈ allowed_workers self -> is_Some (public_keys self !! w);
  no_keys_when_unsafe :
    do_public_key_auth self = false -> public_keys self = ∅
}.

(** Every worker whose status is true is allowed. *)
Definition status_implies_allowed (self : WorkerManager) : Prop :=
  forall w, registered_workers self !! w = Some true -> w ∈ allowed_workers self.

End WorkerManagerRuns.

(* ===================================================================== *)
(** * Invariants of the long-poll bookkeeping *)
(* ===================================================================== *)

Section DCFServerInvariants.
Context `{ServerExternals}.

(** The checks a wait request has to pass before it is installed. *)
Definition wait_accepted (self : DCFServer) (worker_id signed_phrase : string)
  : Prop :=
  is_worker_allowed (worker_manager self) worker_id = true /\
  verify_challenge (worker_manager self) worker_id signed_phrase = Ret true /\
  is_worker_registered (worker_manager self) worker_id = true.

(** How the table of pending notifications, the greenlets and the
    references hang together.  A request's queue and greenlet carry the
    same reference. *)
Record server_consistent (self : DCFServer) : Prop := {
  entries_ok :
    forall w l, model_version_req_dict self !! w = Some l ->
      (List.length l <= 1)%nat /\
      forall g b, (g, b) ∈ l ->
        b = g /\ exists gr, greenlets self !! g = Some gr /\ g_worker_id gr = w;
  greenlets_ok :
    forall g gr, greenlets self !! g = Some gr ->
      (g < next_ref self)%nat /\ g_body gr = g /\
      (g_alive gr = true ->
       model_version_req_dict self !! g_worker_id gr = Some [(g, g)])
}.

(** The queue [b] belongs to a request that is over: its greenlet is dead
    and the table no longer mentions it. *)
Record wait_over (b : nat) (self : DCFServer) : Prop := {
  over_old : (b < next_ref self)%nat;
  over_dead : forall gr, greenlets self !! b = Some gr -> g_alive gr = false;
  over_unlisted :
    forall w l g b', model_version_req_dict self !! w = Some l ->
                     (g, b') ∈ l -> b' <> b
}.

(** What the handlers of registration and administration leave alone. *)
Definition same_waits (s s' : DCFServer) : Prop :=
  model_version_req_dict s' = model_version_req_dict s /\
  greenlets s' = greenlets s /\
  queues s' = queues s /\
  next_ref s' = next_ref s.

End DCFServerInvariants.

(* ===================================================================== *)
(** * _worker_manager.py: listing the workers, and what the tables keep *)
(* ===================================================================== *)

(** [get_worker_list]: one [(worker_id, status)] pair per entry of
    [registered_workers] (the two values of each dictionary the method
    builds).  Python lists the entries in insertion order, the map lists
    them in the order of its keys; what is proved about the list is about
    its members. *)
Definition get_worker_list (self : WorkerManager) : list (string * bool) :=
  map_to_list (registered_workers self).

Section WorkerManagerTables.
Context `{Externals}.

(** A sequence of calls on a manager. *)
Definition wm_run (self : WorkerManager) (calls : list wm_call) : WorkerManager :=
  List.fold_left wm_step calls self.

(** Every stored verify key belongs to an allowed worker and is what
    [VerifyKey] reads from the key's text. *)
Definition keys_of_allowed (self : WorkerManager) : Prop :=
  forall k vk, public_keys self !! k = Some vk ->
    (k ∈ allowed_workers self) /\ VerifyKey (encode k) = Ret vk.

(** The keys database, when there is one, lists the allowed workers. *)
Definition db_mirrors_allowed (self : WorkerManager) : Prop :=
  forall docs, public_keys_db self = Some docs -> docs = allowed_workers self.

(** No worker has the status true. *)
Definition nobody_registered (self : WorkerManager) : Prop :=
  forall w, is_worker_registered self w = false.

End WorkerManagerTables.

(* ===================================================================== *)
(** * dcf_server.py: what the response queues hold *)
(* ===================================================================== *)

Section DCFServerQueues.
Context `{ServerExternals}.

(** The two texts the server puts on a response queue. *)
Definition answer_text (msg : string) : Prop :=
  msg = GLOBAL_MODEL_UPDATED_STRING \/ exists w, msg = superseded_msg w.

(** A queue that has been answered: one text, then the end marker. *)
Definition queue_answered (q : list qitem) : Prop :=
  exists msg, q = [QStr msg; QStopIteration] /\ answer_text msg.

(** Every queue is empty, or answered and its request over. *)
Definition queues_ok (self : DCFServer) : Prop :=
  forall b q, queues self !! b = Some q ->
    q = [] \/ (queue_answered q /\ wait_over b self).

(** [ev] is a wait request of the worker [w]. *)
Definition is_notify_of (w : string) (ev : event) : bool :=
  match ev with
  | EvNotify w' _ _ => String.eqb w' w
  | _ => false
  end.

(** The wait of greenlet [g] for worker [w] is stuck: the greenlet is
    dead, its entry is still the worker's entry in the table. *)
Definition wait_stuck (g : nat) (w : string) (self : DCFServer) : Prop :=
  (exists gr, greenlets self !! g = Some gr /\ g_alive gr = false) /\
  model_version_req_dict self !! w = Some [(g, g)].

(** Every greenlet has its queue. *)
Definition greenlets_have_queues (self : DCFServer) : Prop :=
  forall g gr, greenlets self !! g = Some gr -> is_Some (queues self !! g).

End DCFServerQueues.

(* ===================================================================== *)
(** * zmq_interface.py and zqm_interface.py: the other front-end calls *)
(* ===================================================================== *)

Module BridgeSends.
Import Bridge.

(** [socket.recv_string()]: the reply frame decoded as text.  As for
    [socket_recv], a frame written by [send_pyobj] is made an error. *)
Definition socket_recv_string (f : frame) : result pyval :=
  match f with
  | FrameBytes b => Ret (PyStr (decode b))
  | FramePickle _ => Raise UnpicklingError
  end.

(** The other front-end calls of [zmq_interface.py], each against a model
    built with [cb]. *)
Module ZMQ.

Definition server_args_request_send (cb : callbacks) : outcome :=
  exchange (ZMQ._send [PyBytes (encode "server_args_request")])
    (ZMQ.receive cb) socket_recv_pyobj.

Definition register_worker_send (cb : callbacks) (worker_id : string) : outcome :=
  exchange
    (ZMQ._send [PyBytes (encode "register_worker"); PyBytes (encode worker_id)])
    (ZMQ.receive cb) socket_recv.

Definition unregister_worker_send (cb : callbacks) (worker_id : string)
  : outcome :=
  exchange
    (ZMQ._send [PyBytes (encode "unregister_worker"); PyBytes (encode worker_id)])
    (ZMQ.receive cb) socket_recv.

Definition return_global_model_send (cb : callbacks) : outcome :=
  exchange (ZMQ._send [PyBytes (encode "return_global_model")])
    (ZMQ.receive cb) socket_recv_pyobj.

Definition receive_worker_update_send (cb : callbacks) (worker_id : string)
    (model_update : pyval) : outcome :=
  exchange
    (ZMQ._send [PyBytes (encode "receive_worker_update");
                PyBytes (encode worker_id); model_update])
    (ZMQ.receive cb) socket_recv_string.

End ZMQ.

(** The same calls of [zqm_interface.py]. *)
Module ZQM.

Definition server_args_request_send (cb : callbacks) : outcome :=
  exchange (ZQM._send [PyBytes (encode "server_args_request")])
    (ZQM.receive cb) socket_recv_pyobj.

Definition register_worker_send (cb : callbacks) (worker_id : string) : outcome :=
  exchange
    (ZQM._send [PyBytes (encode "register_worker"); PyBytes (encode worker_id)])
    (ZQM.receive cb) socket_recv.

Definition unregister_worker_send (cb : callbacks) (worker_id : string)
  : outcome :=
  exchange
    (ZQM._send [PyBytes (encode "unregister_worker"); PyBytes (encode worker_id)])
    (ZQM.receive cb) socket_recv.

Definition return_global_model_send (cb : callbacks) : outcome :=
  exchange (ZQM._send [PyBytes (encode "return_global_model")])
    (ZQM.receive cb) socket_recv_pyobj.

Definition receive_worker_update_send (cb : callbacks) (worker_id : string)
    (model_update : pyval) : outcome :=
  exchange
    (ZQM._send [PyBytes (encode "receive_worker_update");
                PyBytes (encode worker_id); model_update])
    (ZQM.receive cb) socket_recv_string.

End ZQM.

(** The six tags a model answers. *)
Definition known_tags : list string :=
  ["server_args_request"; "register_worker"; "unregister_worker";
   "return_global_model"; "is_global_model_most_recent";
   "receive_worker_update"].

End BridgeSends.

(* ===================================================================== *)
(** * Stand-ins used to run the model on concrete inputs *)
(* ===================================================================== *)

(** A stand-in for libsodium in examples: a signed message is accepted
    when it has at least 64 bytes and its first 32 repeat the verify key;
    the payload is what follows the 64 signature bytes. *)
Definition demo_crypto_sign_open (smessage pk : bytes) : option bytes :=
  if (64 <=? List.length smessage)%nat && bool_decide (take 32 smessage = pk)
  then Some (drop 64 smessage) else None.

Definition demo_externals : Externals := {|
  INVALID_WORKER := "__invalid_worker__";
  message_seriously_wrong := fun msg => "Something is seriously wrong: " +:+ msg;
  crypto_sign_open := demo_crypto_sign_open
|}.

(** Modelled from the spec: [WorkerManager.verify_challenge], which
    [dcf_server.py] calls and the shown [_worker_manager.py] does not
    define.  The spec asks for "a single, consistently-named
    authenticate-with-challenge operation"; it is taken to be
    [authenticate_worker] on the worker's identity and signed phrase. *)
Definition verify_challenge_spec `{Externals} (self : WorkerManager)
    (worker_id signed_phrase : string) : result bool :=
  authenticate_worker self worker_id signed_phrase.

Definition demo_server_externals : @ServerExternals demo_externals := {|
  UNREGISTERED_WORKER := "__unregistered_worker__";
  GLOBAL_MODEL_UPDATED_STRING := "__global_model_updated__";
  WID_LEN := 8;
  verify_challenge := @verify_challenge_spec demo_externals
|}.

(** A well-formed verify key (64 hexadecimal digits) and a second one. *)
Definition demo_key : string :=
  "d75a980182b10ab7d54bfed3c964073a0ee172f3daa62325af021a68f707511a".
Definition demo_key2 : string :=
  "3d4017c3e843895a92b70aa74d1b7ebc9c982ccf2ec4968cc0cd55f12af4660c".

(** A safe-mode manager in which [demo_key] has been added. *)
Definition demo_manager : WorkerManager :=
  fst (@add_worker demo_externals (@new_manager true None) "" demo_key).

(** [demo_key] added and its status set to true. *)
Definition demo_registered : WorkerManager :=
  @wm_step demo_externals
    (@wm_step demo_externals (new_manager true None) (CallAddWorker "" demo_key))
    (CallSetRegistrationStatus demo_key true).

(** A signed message the stand-in accepts under [demo_key], one it
    refuses, and their hexadecimal texts. *)
Definition demo_verify_key : bytes :=
  default [] (unhexlify (encode demo_key)).
Definition demo_smessage : bytes :=
  (demo_verify_key ++ List.repeat x00 32 ++ encode "challenge phrase")%list.
Definition demo_forged : bytes :=
  (List.repeat x00 64 ++ encode "challenge phrase")%list.

(** A clock reading, the identity an unsafe-mode manager derives from it,
    and a server in which that worker has registered and is waiting. *)
Definition demo_now : string := "1604500000.0".
Definition demo_worker : string :=
  SHA224.hexdigest (encode demo_now) +:+ "_unauthenticated".
Definition demo_events : list event :=
  [EvRegister demo_now "dummy public key" "dummy signed phrase";
   EvNotify demo_worker "1" "dummy signed phrase"].
Definition demo_server : DCFServer :=
  @run demo_externals demo_server_externals
    (new_server (new_manager false None)) demo_events.

(** A back end whose predicate says "most recent" to everything. *)
Definition demo_callbacks : Bridge.callbacks :=
  Bridge.mkCallbacks (fun _ => Ret Bridge.PyNone) (fun _ => Ret Bridge.PyNone)
    (Ret Bridge.PyNone) (fun _ => Ret (Bridge.PyBool true))
    (fun _ _ => Ret (Bridge.PyStr "ok")) Bridge.PyNone.

(** The calls that lead to [demo_registered]. *)
Definition demo_calls : list wm_call :=
  [CallAddWorker "" demo_key; CallSetRegistrationStatus demo_key true].

(** The greenlet of the wait in [demo_server]. *)
Definition demo_greenlet : greenlet := mkGreenlet demo_worker 0 "1" true.

(* ===================================================================== *)
(** * Properties: Python lists and hexadecimal text *)
(* ===================================================================== *)

Lemma py_in_true (x : string) (l : list string) : py_in x l = true <-> x ∈ l.
Proof. unfold py_in. apply bool_decide_eq_true. Qed.

Lemma py_in_false (x : string) (l : list string) : py_in x l = false <-> x ∉ l.
Proof. unfold py_in. apply bool_decide_eq_false. Qed.

Lemma py_list_remove_other (x y : string) (l : list string) :
  y <> x -> y ∈ py_list_remove x l <-> y ∈ l.
Proof.
  intros Hne. induction l as [|z l IH]; simpl; [done|].
  destruct (decide (x = z)) as [->|Hxz].
  - rewrite elem_of_cons. naive_solver.
  - rewrite !elem_of_cons, IH. done.
Qed.

Lemma py_list_remove_subseteq (x y : string) (l : list string) :
  y ∈ py_list_remove x l -> y ∈ l.
Proof.
  induction l as [|z l IH]; simpl; [done|].
  destruct (decide (x = z)) as [->|Hxz]; rewrite ?elem_of_cons; naive_solver.
Qed.

Lemma py_list_remove_NoDup (x : string) (l : list string) :
  NoDup l -> NoDup (py_list_remove x l).
Proof.
  induction 1 as [|z l Hz Hl IH]; simpl; [constructor|].
  destruct (decide (x = z)); [done|].
  constructor; [|done]. intros Hin. apply Hz.
  by eapply py_list_remove_subseteq.
Qed.

Lemma py_list_remove_gone (x : string) (l : list string) :
  NoDup l -> x ∉ py_list_remove x l.
Proof.
  induction 1 as [|z l Hz Hl IH]; simpl; [apply not_elem_of_nil|].
  destruct (decide (x = z)) as [->|Hxz]; [done|].
  rewrite elem_of_cons. naive_solver.
Qed.

Lemma py_list_remove_length (x : string) (l : list string) :
  x ∈ l -> S (List.length (py_list_remove x l)) = List.length l.
Proof.
  induction l as [|z l IH]; simpl.
  - intros Hin. by apply elem_of_nil in Hin.
  - intros Hin. destruct (decide (x = z)) as [->|Hxz]; [done|].
    apply elem_of_cons in Hin as [->|Hin]; [done|].
    simpl. by rewrite IH.
Qed.

Lemma hex_digits_of_byte (b : byte) :
  hex_val (hex_digit (Byte.to_N b / 16)) = Some (Byte.to_N b / 16)%N /\
  hex_val (hex_digit (Byte.to_N b mod 16)) = Some (Byte.to_N b mod 16)%N /\
  Byte.of_N (16 * (Byte.to_N b / 16) + Byte.to_N b mod 16) = Some b.
Proof. destruct b; vm_compute; auto. Qed.

(** Decoding the hexadecimal text of [bs] gives [bs] back. *)
Lemma unhexlify_hexlify (bs : bytes) : unhexlify (hexlify bs) = Some bs.
Proof.
  induction bs as [|b bs IH]; [done|].
  destruct (hex_digits_of_byte b) as (Hh & Hl & Hb).
  cbn [hexlify unhexlify]. rewrite Hh, Hl, Hb, IH. done.
Qed.

Lemma encode_decode (b : bytes) : encode (decode b) = b.
Proof. apply list_byte_of_string_of_list_byte. Qed.

Lemma decode_encode (s : string) : decode (encode s) = s.
Proof. apply string_of_list_byte_of_string. Qed.

(* ===================================================================== *)
(** * Properties of the worker manager *)
(* ===================================================================== *)

Section WorkerManagerFacts.
Context `{Externals}.

Lemma add_public_key_fields (self : WorkerManager) (k : string) :
  let self' := fst (add_public_key self k) in
  allowed_workers self' = allowed_workers self /\
  registered_workers self' = registered_workers self /\
  public_keys_db self' = public_keys_db self /\
  do_public_key_auth self' = do_public_key_auth self /\
  (forall w, is_Some (public_keys self !! w) -> is_Some (public_keys self' !! w)) /\
  (do_public_key_auth self = false -> self' = self) /\
  (snd (add_public_key self k) = false -> self' = self) /\
  (do_public_key_auth self = true -> snd (add_public_key self k) = true ->
   is_Some (public_keys self' !! k)).
Proof.
  unfold add_public_key.
  destruct (do_public_key_auth self) eqn:Hauth; simpl; [|by repeat split].
  destruct (public_keys self !! k) as [vk|] eqn:Hk; simpl.
  { repeat split; rewrite ?Hk; eauto. }
  destruct (VerifyKey (encode k)) as [vk|e]; simpl; [|by repeat split].
  repeat split; auto; try done.
  - intros w Hw. destruct (decide (k = w)) as [->|Hne].
    + rewrite lookup_insert_eq. eauto.
    + by rewrite lookup_insert_ne.
  - intros _ _. rewrite lookup_insert_eq. eauto.
Qed.

(** The state [_add_worker] leaves when it adds a worker. *)
Lemma _add_worker_added (self : WorkerManager) (now k : string) :
  let w := generate_id_for_worker self now k in
  (do_public_key_auth self = false \/ is_Some (public_keys self !! k)) ->
  w ∉ allowed_workers self ->
  let self' := fst (_add_worker self now k) in
  snd (_add_worker self now k) = Added w /\
  allowed_workers self' = (allowed_workers self ++ [w])%list /\
  registered_workers self' = <[w := false]> (registered_workers self) /\
  public_keys self' = public_keys self /\
  do_public_key_auth self' = do_public_key_auth self.
Proof.
  intros w Hk Hw. unfold _add_worker. fold w.
  assert (do_public_key_auth self
          && bool_decide (public_keys self !! k = None) = false) as ->.
  { destruct Hk as [->|[vk Hvk]]; [done|].
    rewrite Hvk. rewrite bool_decide_eq_false_2 by done. apply andb_false_r. }
  apply py_in_false in Hw. rewrite Hw. simpl.
  destruct (public_keys_db self); simpl; auto.
Qed.

Lemma _add_worker_previously (self : WorkerManager) (now k : string) :
  let w := generate_id_for_worker self now k in
  (do_public_key_auth self = false \/ is_Some (public_keys self !! k)) ->
  w ∈ allowed_workers self ->
  _add_worker self now k = (self, AddedPreviously w).
Proof.
  intros w Hk Hw. unfold _add_worker. fold w.
  assert (do_public_key_auth self
          && bool_decide (public_keys self !! k = None) = false) as ->.
  { destruct Hk as [->|[vk Hvk]]; [done|].
    rewrite Hvk. rewrite bool_decide_eq_false_2 by done. apply andb_false_r. }
  apply py_in_true in Hw. rewrite Hw. done.
Qed.

Lemma _add_worker_wrong (self : WorkerManager) (now k : string) :
  do_public_key_auth self = true -> public_keys self !! k = None ->
  _add_worker self now k =
    (self, SeriouslyWrong
             (message_seriously_wrong
                "trying to add worker without adding worker first")).
Proof.
  intros Ha Hk. unfold _add_worker. rewrite Ha, Hk.
  by rewrite bool_decide_eq_true_2.
Qed.

Lemma _add_worker_consistent (self : WorkerManager) (now k : string) :
  tables_consistent self -> tables_consistent (fst (_add_worker self now k)).
Proof.
  intros Hc.
  destruct (do_public_key_auth self) eqn:Hauth.
  - destruct (public_keys self !! k) as [vk|] eqn:Hk.
    2:{ by rewrite _add_worker_wrong. }
    destruct (decide (generate_id_for_worker self now k ∈ allowed_workers self))
      as [Hin|Hnin].
    { rewrite _add_worker_previously; eauto. }
    destruct (_add_worker_added self now k) as (_ & Ha & Hr & Hp & Hd); eauto.
    assert (generate_id_for_worker self now k = k) as Hid.
    { unfold generate_id_for_worker. by rewrite Hauth. }
    rewrite Hid in *.
    destruct Hc as [Hnd Hst Hkey Hno].
    split; rewrite ?Ha, ?Hr, ?Hp, ?Hd.
    + apply NoDup_app. split; [done|]. split; [|apply NoDup_singleton].
      intros x Hx Hx'. apply list_elem_of_singleton in Hx'. by subst.
    + intros w Hw. apply elem_of_app in Hw as [Hw|Hw].
      * destruct (decide (k = w)) as [->|Hne];
          [rewrite lookup_insert_eq; eauto | rewrite lookup_insert_ne; auto].
      * apply list_elem_of_singleton in Hw as ->. rewrite lookup_insert_eq; eauto.
    + intros _ w Hw. apply elem_of_app in Hw as [Hw|Hw]; [auto|].
      apply list_elem_of_singleton in Hw as ->. rewrite Hk; eauto.
    + intros Hf. congruence.
  - destruct (decide (generate_id_for_worker self now k ∈ allowed_workers self))
      as [Hin|Hnin].
    { rewrite _add_worker_previously; eauto. }
    destruct (_add_worker_added self now k) as (_ & Ha & Hr & Hp & Hd); eauto.
    destruct Hc as [Hnd Hst Hkey Hno].
    split; rewrite ?Ha, ?Hr, ?Hp, ?Hd.
    + apply NoDup_app. split; [done|]. split; [|apply NoDup_singleton].
      intros x Hx Hx'. apply list_elem_of_singleton in Hx'. by subst.
    + intros w Hw. apply elem_of_app in Hw as [Hw|Hw].
      * destruct (decide (generate_id_for_worker self now k = w)) as [->|Hne];
          [rewrite lookup_insert_eq; eauto | rewrite lookup_insert_ne; auto].
      * apply list_elem_of_singleton in Hw as ->. rewrite lookup_insert_eq; eauto.
    + intros Ht. congruence.
    + auto.
Qed.

Lemma add_public_key_consistent (self : WorkerManager) (k : string) :
  tables_consistent self -> tables_consistent (fst (add_public_key self k)).
Proof.
  intros [Hnd Hst Hkey Hno].
  destruct (add_public_key_fields self k)
    as (Ha & Hr & Hdb & Hd & Hmono & Hoff & _ & _).
  split; rewrite ?Ha, ?Hr, ?Hd; auto.
  intros Hf. rewrite (Hoff Hf). auto.
Qed.

Lemma add_worker_consistent (self : WorkerManager) (now k : string) :
  tables_consistent self -> tables_consistent (fst (add_worker self now k)).
Proof.
  intros Hc. unfold add_worker.
  destruct (do_public_key_auth self); [|by apply _add_worker_consistent].
  pose proof (add_public_key_consistent self k Hc) as Hc'.
  destruct (add_public_key self k) as [self1 ok]; simpl in *.
  destruct ok; simpl; [by apply _add_worker_consistent|done].
Qed.

Lemma set_registration_status_fields (self self' : WorkerManager)
    (w ret : string) (b : bool) :
  set_registration_status self w b = Ret (self', ret) ->
  allowed_workers self' = allowed_workers self /\
  public_keys self' = public_keys self /\
  public_keys_db self' = public_keys_db self /\
  do_public_key_auth self' = do_public_key_auth self /\
  (((w ∈ allowed_workers self) /\ ret = w /\
    registered_workers self' = <[w := b]> (registered_workers self)) \/
   ((w ∉ allowed_workers self) /\ ret = INVALID_WORKER /\ self' = self)).
Proof.
  unfold set_registration_status.
  destruct (py_in w (allowed_workers self)) eqn:Hin.
  - destruct (registered_workers self !! w); [|done].
    intros [= <- <-]. simpl. repeat split; auto.
    left. by apply py_in_true in Hin.
  - intros [= <- <-]. repeat split; auto.
    right. by apply py_in_false in Hin.
Qed.

Lemma remove_worker_allowed (self : WorkerManager) (w : string) :
  w ∈ allowed_workers self ->
  let self' := fst (remove_worker self w) in
  snd (remove_worker self w) = w /\
  allowed_workers self' = py_list_remove w (allowed_workers self) /\
  registered_workers self' = registered_workers self /\
  public_keys self' =
    (if do_public_key_auth self then delete w (public_keys self)
     else public_keys self) /\
  public_keys_db self' =
    option_map (List.filter (fun k => negb (String.eqb k w)))
               (public_keys_db self) /\
  do_public_key_auth self' = do_public_key_auth self.
Proof.
  intros Hin. unfold remove_worker, delete_public_key.
  apply py_in_true in Hin. rewrite Hin. simpl.
  destruct (do_public_key_auth self) eqn:Hauth; simpl.
  - destruct (public_keys self !! w) eqn:Hk; simpl;
      destruct (public_keys_db self) eqn:Hdb; simpl; rewrite ?Hdb; simpl;
      repeat split; auto; by rewrite delete_id.
  - destruct (public_keys_db self) eqn:Hdb; simpl; rewrite ?Hdb; simpl;
      repeat split; auto.
Qed.

Lemma remove_worker_not_allowed (self : WorkerManager) (w : string) :
  w ∉ allowed_workers self -> remove_worker self w = (self, INVALID_WORKER).
Proof.
  intros Hin. unfold remove_worker. apply py_in_false in Hin. by rewrite Hin.
Qed.

Lemma remove_worker_consistent (self : WorkerManager) (w : string) :
  tables_consistent self -> tables_consistent (fst (remove_worker self w)).
Proof.
  intros Hc. destruct (decide (w ∈ allowed_workers self)) as [Hin|Hnin].
  2:{ by rewrite remove_worker_not_allowed. }
  destruct (remove_worker_allowed self w Hin) as (_ & Ha & Hr & Hp & _ & Hd).
  destruct Hc as [Hnd Hst Hkey Hno].
  split; rewrite ?Ha, ?Hr, ?Hp, ?Hd.
  - by apply py_list_remove_NoDup.
  - intros x Hx. apply Hst. by eapply py_list_remove_subseteq.
  - intros Ht x Hx. rewrite Ht.
    assert (x <> w) as Hne.
    { intros ->. by apply (py_list_remove_gone w (allowed_workers self)). }
    rewrite lookup_delete_ne by done. apply Hkey; [done|].
    by eapply py_list_remove_subseteq.
  - intros Hf. rewrite Hf. auto.
Qed.

Lemma wm_step_consistent (self : WorkerManager) (c : wm_call) :
  tables_consistent self -> tables_consistent (wm_step self c).
Proof.
  intros Hc. destruct c as [now k|now k sp|w b|w]; simpl.
  - by apply add_worker_consistent.
  - unfold authenticate_and_add_worker.
    destruct (authenticate_worker self k sp) as [[|]|e]; simpl; [|done|done].
    by apply _add_worker_consistent.
  - destruct (set_registration_status self w b) as [[self' ret]|e] eqn:Hs;
      [|done].
    apply set_registration_status_fields in Hs
      as (Ha & Hp & _ & Hd & [(Hin & _ & Hr)|(_ & _ & ->)]); [|done].
    destruct Hc as [Hnd Hst Hkey Hno].
    split; rewrite ?Ha, ?Hr, ?Hp, ?Hd; auto.
    intros x Hx. destruct (decide (w = x)) as [->|Hne];
      [rewrite lookup_insert_eq; eauto | rewrite lookup_insert_ne; auto].
  - by apply remove_worker_consistent.
Qed.

Lemma new_manager_consistent (safe : bool) (db : option (list string)) :
  tables_consistent (new_manager safe db).
Proof.
  split; simpl; [constructor| | |done];
    intros; by match goal with Hx : _ ∈ [] |- _ => apply elem_of_nil in Hx end.
Qed.

(** Every state a fresh manager can get into has consistent tables. *)
Lemma reachable_by_consistent (P : WorkerManager -> wm_call -> Prop)
    (self : WorkerManager) :
  reachable_by P self -> tables_consistent self.
Proof.
  induction 1; [apply new_manager_consistent|by apply wm_step_consistent].
Qed.

End WorkerManagerFacts.

(* ===================================================================== *)
(** * Removal, and the coupling of "registered" with "allowed" *)
(* ===================================================================== *)

Section RemovalFacts.
Context `{Externals}.


(** A call other than an unguarded removal keeps every worker whose status
    is true inside [allowed_workers]. *)
Lemma _add_worker_monotone (self : WorkerManager) (now k : string) :
  let self' := fst (_add_worker self now k) in
  (forall x, x ∈ allowed_workers self -> x ∈ allowed_workers self') /\
  (forall x, registered_workers self' !! x = Some true ->
             registered_workers self !! x = Some true).
Proof.
  destruct (do_public_key_auth self) eqn:Hauth;
    [destruct (public_keys self !! k) as [vk|] eqn:Hk|].
  2:{ by rewrite _add_worker_wrong. }
  all: destruct (decide (generate_id_for_worker self now k ∈ allowed_workers self))
         as [Hin|Hnin];
       [rewrite _add_worker_previously; eauto|].
  all: destruct (_add_worker_added self now k) as (_ & Ha & Hr & _ & _); eauto.
  all: simpl; rewrite Ha, Hr; split;
       [intros x Hx; apply elem_of_app; by left|].
  all: intros x; destruct (decide (generate_id_for_worker self now k = x)) as [->|Hne];
       [by rewrite lookup_insert_eq | by rewrite lookup_insert_ne].
Qed.

Lemma wm_step_status_implies_allowed (self : WorkerManager) (c : wm_call) :
  removes_unregistered self c ->
  status_implies_allowed self -> status_implies_allowed (wm_step self c).
Proof.
  intros Hguard Hinv. destruct c as [now k|now k sp|w b|w]; simpl.
  - unfold add_worker.
    destruct (add_public_key_fields self k) as (Ha & Hr & _ & Hd & _).
    destruct (do_public_key_auth self).
    + destruct (add_public_key self k) as [self1 ok]; simpl in *.
      assert (status_implies_allowed self1) as Hinv1.
      { intros x Hx. rewrite Ha. apply Hinv. by rewrite <- Hr. }
      destruct ok; simpl; [|done].
      destruct (_add_worker_monotone self1 now k) as [Hal Hrg].
      intros x Hx. apply Hal, Hinv1, Hrg, Hx.
    + destruct (_add_worker_monotone self now k) as [Hal Hrg].
      intros x Hx. apply Hal, Hinv, Hrg, Hx.
  - unfold authenticate_and_add_worker.
    destruct (authenticate_worker self k sp) as [[|]|e]; simpl; [|done|done].
    destruct (_add_worker_monotone self now k) as [Hal Hrg].
    intros x Hx. apply Hal, Hinv, Hrg, Hx.
  - destruct (set_registration_status self w b) as [[self' ret]|e] eqn:Hs;
      [|done].
    apply set_registration_status_fields in Hs
      as (Ha & _ & _ & _ & [(Hin & _ & Hr)|(_ & _ & ->)]); [|done].
    intros x. rewrite Ha, Hr. destruct (decide (w = x)) as [->|Hne]; [done|].
    rewrite lookup_insert_ne by done. apply Hinv.
  - simpl in Hguard. destruct (decide (w ∈ allowed_workers self)) as [Hin|Hnin].
    2:{ by rewrite remove_worker_not_allowed. }
    destruct (remove_worker_allowed self w Hin) as (_ & Ha & Hr & _).
    intros x. rewrite Ha, Hr. intros Hx.
    assert (x <> w) as Hne.
    { intros ->. unfold is_worker_registered in Hguard. by rewrite Hx in Hguard. }
    apply py_list_remove_other; [done|]. by apply Hinv.
Qed.

(** C2, as amended.  In every state reached from a fresh manager by
    [add_worker], [authenticate_and_add_worker], [set_registration_status]
    and [remove_worker] calls in which [remove_worker] is only called on a
    worker whose registration status is false at that moment (what
    [admin_delete_worker] arranges by setting the status to false first),
    a worker that [is_worker_registered] is also [is_worker_allowed]. *)
Theorem registered_implies_allowed (self : WorkerManager) (worker_id : string) :
  reachable_unregistering self ->
  is_worker_registered self worker_id = true ->
  is_worker_allowed self worker_id = true.
Proof.
  intros Hreach.
  assert (status_implies_allowed self) as Hinv.
  { induction Hreach as [safe db|self c _ IH Hguard].
    - intros w. simpl. by rewrite lookup_empty.
    - by apply wm_step_status_implies_allowed. }
  intros Hreg. apply py_in_true, Hinv. unfold is_worker_registered in Hreg.
  destruct (registered_workers self !! worker_id) as [[|]|]; done.
Qed.

End RemovalFacts.

(* ===================================================================== *)
(** * Adding workers *)
(* ===================================================================== *)

Section AddingFacts.
Context `{Externals}.

Lemma _add_worker_public_keys (self : WorkerManager) (now k : string) :
  public_keys (fst (_add_worker self now k)) = public_keys self /\
  do_public_key_auth (fst (_add_worker self now k)) = do_public_key_auth self.
Proof.
  destruct (do_public_key_auth self) eqn:Hauth;
    [destruct (public_keys self !! k) as [vk|] eqn:Hk|].
  2:{ by rewrite _add_worker_wrong. }
  all: destruct (decide (generate_id_for_worker self now k ∈ allowed_workers self))
         as [Hin|Hnin];
       [rewrite _add_worker_previously; eauto|].
  all: destruct (_add_worker_added self now k) as (_ & _ & _ & Hp & Hd); eauto.
  all: by rewrite Hp, Hd.
Qed.

(** In safe mode, with the key stored, [_add_worker] ends in one of its
    two ordinary returns and the identity is the key. *)
Lemma _add_worker_stored_key (s : WorkerManager) (now k : string) :
  do_public_key_auth s = true ->
  is_Some (public_keys s !! k) ->
  let s' := fst (_add_worker s now k) in
  (snd (_add_worker s now k) = Added k \/
   snd (_add_worker s now k) = AddedPreviously k) /\
  k ∈ allowed_workers s' /\
  is_Some (public_keys s' !! k) /\
  do_public_key_auth s' = true /\
  (k ∈ allowed_workers s -> _add_worker s now k = (s, AddedPreviously k)).
Proof.
  intros Hauth Hkey.
  assert (generate_id_for_worker s now k = k) as Hid.
  { unfold generate_id_for_worker. by rewrite Hauth. }
  pose proof (_add_worker_previously s now k) as Hprev.
  pose proof (_add_worker_added s now k) as Hadd.
  cbv zeta in Hprev, Hadd. rewrite Hid in Hprev, Hadd.
  destruct (decide (k ∈ allowed_workers s)) as [Hin|Hnin].
  - rewrite Hprev by auto. simpl. rewrite Hauth. auto 10.
  - destruct Hadd as (Hres & Hal & _ & Hp & Hd); [auto|done|].
    cbv zeta. rewrite Hres, Hal, Hp, Hd. repeat split; auto; try done.
    apply elem_of_app. right. by apply list_elem_of_singleton.
Qed.


(** C10.  Neither [add_worker] nor [authenticate_and_add_worker] ever
    takes the "seriously wrong" return of [_add_worker]: when
    authentication is enabled both make sure the key is in [public_keys]
    before [_add_worker] runs, and when it is disabled the test of that
    branch is false. *)
Theorem seriously_wrong_unreachable (self : WorkerManager)
    (now public_key_str signed_phrase : string) :
  (forall err, snd (add_worker self now public_key_str) <> SeriouslyWrong err) /\
  (forall self' err,
     authenticate_and_add_worker self now public_key_str signed_phrase
     <> Ret (self', SeriouslyWrong err)).
Proof.
  assert (forall s,
            (do_public_key_auth s = false \/ is_Some (public_keys s !! public_key_str)) ->
            forall err, snd (_add_worker s now public_key_str) <> SeriouslyWrong err)
    as Hsafe.
  { intros s Hk err.
    destruct (decide (generate_id_for_worker s now public_key_str
                        ∈ allowed_workers s)) as [Hin|Hnin].
    - by rewrite _add_worker_previously.
    - destruct (_add_worker_added s now public_key_str) as (-> & _); done. }
  split.
  - intros err. unfold add_worker.
    destruct (do_public_key_auth self) eqn:Hauth; [|apply Hsafe; by left].
    destruct (add_public_key_fields self public_key_str)
      as (_ & _ & _ & Hd & _ & _ & _ & Hkey).
    destruct (add_public_key self public_key_str) as [s1 ok]; simpl in *.
    destruct ok; simpl; [|done]. apply Hsafe. right. by apply Hkey.
  - intros self' err. unfold authenticate_and_add_worker.
    destruct (authenticate_worker self public_key_str signed_phrase)
      as [[|]|e] eqn:Hv; simpl; [|done|done].
    intros [= Heq].
    assert (snd (_add_worker self now public_key_str) = SeriouslyWrong err) as Hs
      by (by rewrite Heq).
    revert Hs. apply Hsafe.
    unfold authenticate_worker in Hv.
    destruct (do_public_key_auth self); [right|by left].
    simpl in Hv. destruct (public_keys self !! public_key_str); [eauto|done].
Qed.

(** C8: with authentication disabled the identity depends on the clock
    reading and on nothing else, so two calls that read the same clock
    value return the same identity, whatever their arguments. *)
Theorem generate_id_for_worker_same_clock_reading (self : WorkerManager)
    (now public_key_str1 public_key_str2 : string) :
  do_public_key_auth self = false ->
  generate_id_for_worker self now public_key_str1
  = generate_id_for_worker self now public_key_str2.
Proof. intros Hauth. unfold generate_id_for_worker. by rewrite Hauth. Qed.

End AddingFacts.

(* ===================================================================== *)
(** * Authentication *)
(* ===================================================================== *)

Section AuthenticationFacts.
Context `{Externals}.

Lemma wm_step_auth (self : WorkerManager) (c : wm_call) :
  do_public_key_auth (wm_step self c) = do_public_key_auth self.
Proof.
  destruct c as [now k|now k sp|w b|w]; simpl.
  - unfold add_worker.
    destruct (add_public_key_fields self k) as (_ & _ & _ & Hd & _).
    destruct (do_public_key_auth self) eqn:Hauth.
    2:{ destruct (_add_worker_public_keys self now k) as [_ ->]. done. }
    destruct (add_public_key self k) as [s1 ok]; simpl in *.
    destruct ok; simpl; [|done].
    destruct (_add_worker_public_keys s1 now k) as [_ ->]. done.
  - unfold authenticate_and_add_worker.
    destruct (authenticate_worker self k sp) as [[|]|e]; simpl; [|done|done].
    apply _add_worker_public_keys.
  - destruct (set_registration_status self w b) as [[self' ret]|e] eqn:Hs;
      [|done].
    by apply set_registration_status_fields in Hs as (_ & _ & _ & Hd & _).
  - destruct (decide (w ∈ allowed_workers self)) as [Hin|Hnin].
    + by destruct (remove_worker_allowed self w Hin) as (_ & _ & _ & _ & _ & Hd).
    + by rewrite remove_worker_not_allowed.
Qed.

(** A key that no [add_worker] call names stays out of [public_keys]. *)
Lemma wm_step_key_absent (self : WorkerManager) (c : wm_call) (key : string) :
  (forall now, c <> CallAddWorker now key) ->
  public_keys self !! key = None ->
  public_keys (wm_step self c) !! key = None.
Proof.
  intros Hc Habs. destruct c as [now k|now k sp|w b|w]; simpl.
  - assert (k <> key) as Hne by (intros ->; by apply (Hc now)).
    assert (public_keys (fst (add_public_key self k)) !! key = None) as Hk.
    { unfold add_public_key. destruct (do_public_key_auth self); simpl; [|done].
      destruct (public_keys self !! k); simpl; [done|].
      destruct (VerifyKey (encode k)); simpl; [|done].
      by rewrite lookup_insert_ne. }
    unfold add_worker. destruct (do_public_key_auth self).
    + destruct (add_public_key self k) as [s1 ok]; simpl in *.
      destruct ok; simpl; [|done].
      destruct (_add_worker_public_keys s1 now k) as [-> _]. done.
    + destruct (_add_worker_public_keys self now k) as [-> _]. done.
  - unfold authenticate_and_add_worker.
    destruct (authenticate_worker self k sp) as [[|]|e]; simpl; [|done|done].
    destruct (_add_worker_public_keys self now k) as [Hp _].
    destruct (_add_worker self now k) as [s1 r]; simpl in *. by rewrite Hp.
  - destruct (set_registration_status self w b) as [[self' ret]|e] eqn:Hs;
      [|done].
    apply set_registration_status_fields in Hs as (_ & -> & _). done.
  - destruct (decide (w ∈ allowed_workers self)) as [Hin|Hnin].
    + destruct (remove_worker_allowed self w Hin) as (_ & _ & _ & -> & _).
      destruct (do_public_key_auth self); [|done].
      destruct (decide (w = key)) as [->|Hne];
        [apply lookup_delete_eq | by rewrite lookup_delete_ne].
    + by rewrite remove_worker_not_allowed.
Qed.

Lemma never_inserted_key_absent (calls : list wm_call) (self : WorkerManager)
    (key : string) :
  (forall now, CallAddWorker now key ∉ calls) ->
  public_keys self !! key = None ->
  public_keys (List.fold_left wm_step calls self) !! key = None.
Proof.
  revert self. induction calls as [|c calls IH]; intros self Hnever Habs; [done|].
  simpl. apply IH.
  - intros now Hin. apply (Hnever now). by right.
  - apply wm_step_key_absent; [|done].
    intros now ->. apply (Hnever now). by left.
Qed.

Lemma fold_wm_step_auth (calls : list wm_call) (self : WorkerManager) :
  do_public_key_auth (List.fold_left wm_step calls self) = do_public_key_auth self.
Proof.
  revert self. induction calls as [|c calls IH]; intros self; [done|].
  simpl. by rewrite IH, wm_step_auth.
Qed.

(** What [authenticate_worker] answers for a stored key, by the outcome of
    decoding and checking the signed message. *)
Lemma authenticate_worker_stored (self : WorkerManager) (key m : string)
    (vk : bytes) :
  do_public_key_auth self = true ->
  public_keys self !! key = Some vk ->
  authenticate_worker self key m =
    match unhexlify (encode m) with
    | None => Raise BinasciiError
    | Some smessage =>
        match crypto_sign_open smessage vk with
        | Some _ => Ret true
        | None => Ret false
        end
    end.
Proof.
  intros Hauth Hk. unfold authenticate_worker, VerifyKey_verify, HexEncoder_decode.
  rewrite Hauth, Hk. simpl.
  destruct (unhexlify (encode m)) as [smessage|]; simpl; [|done].
  by destruct (crypto_sign_open smessage vk).
Qed.


(** A signed phrase that is not hexadecimal text makes the call raise:
    only [BadSignatureError] is caught. *)
Lemma authenticate_and_add_worker_raises (self : WorkerManager)
    (now key signed_phrase : string) :
  do_public_key_auth self = true ->
  is_Some (public_keys self !! key) ->
  unhexlify (encode signed_phrase) = None ->
  authenticate_and_add_worker self now key signed_phrase = Raise BinasciiError.
Proof.
  intros Hauth [vk Hk] Hhex. unfold authenticate_and_add_worker.
  rewrite (authenticate_worker_stored self _ _ vk Hauth Hk), Hhex. done.
Qed.

(** When the call returns with a failed authentication, it has returned
    [(INVALID_WORKER, False)] and the tables are as they were. *)
Lemma authenticate_and_add_worker_refused (self : WorkerManager)
    (now key signed_phrase : string) :
  authenticate_worker self key signed_phrase = Ret false ->
  authenticate_and_add_worker self now key signed_phrase = Ret (self, InvalidKey)
  /\ py_tuple InvalidKey = (INVALID_WORKER, false).
Proof.
  intros Hv. unfold authenticate_and_add_worker. by rewrite Hv.
Qed.

(** C6, on the code: with [demo_key] stored in a safe-mode manager, the
    signed phrase ["zz"] makes [authenticate_and_add_worker] raise
    [binascii.Error] instead of returning [(INVALID_WORKER, False)]. *)
Theorem authenticate_and_add_worker_escapes (now : string) :
  authenticate_and_add_worker demo_manager now demo_key "zz"
  = Raise BinasciiError.
Proof.
  apply authenticate_and_add_worker_raises.
  - reflexivity.
  - destruct (public_keys demo_manager !! demo_key) eqn:Hk; [eauto|].
    vm_compute in Hk. discriminate.
  - reflexivity.
Qed.

End AuthenticationFacts.

(* ===================================================================== *)
(** * Properties of the long-poll notifications *)
(* ===================================================================== *)

Section DCFServerFacts.
Context `{ServerExternals}.

Lemma notify_rejected (self : DCFServer) (w v sp : string) :
  ~ wait_accepted self w sp ->
  fst (notify_me_if_gm_version_updated self w v sp) = self.
Proof.
  intros Hrej. unfold notify_me_if_gm_version_updated.
  destruct (is_worker_allowed (worker_manager self) w) eqn:Ha; simpl; [|done].
  destruct (verify_challenge (worker_manager self) w sp) as [[|]|e] eqn:Hv;
    simpl; [|done|done].
  destruct (is_worker_registered (worker_manager self) w) eqn:Hr; simpl; [|done].
  destruct Hrej. done.
Qed.

(** The state a wait request leaves when it is accepted and nothing is
    pending for the worker. *)
Lemma notify_fresh (self : DCFServer) (w v sp : string) :
  wait_accepted self w sp ->
  (model_version_req_dict self !! w = None \/
   model_version_req_dict self !! w = Some []) ->
  let n := next_ref self in
  notify_me_if_gm_version_updated self w v sp =
    (mkDCFServer (worker_manager self)
       (<[w := [(n, n)]]> (model_version_req_dict self))
       (<[n := mkGreenlet w n v true]> (greenlets self))
       (<[n := []]> (queues self))
       (S n) (callback_log self),
     RespBody n).
Proof.
  intros (Ha & Hv & Hr) Hd n. unfold notify_me_if_gm_version_updated.
  rewrite Ha, Hv, Hr. simpl.
  destruct Hd as [Hd | Hd]; rewrite Hd; simpl; rewrite ?Hd; reflexivity.
Qed.

(** ... and when one request is pending. *)
Lemma notify_supersedes (self : DCFServer) (w v sp : string) (g b : nat) :
  wait_accepted self w sp ->
  model_version_req_dict self !! w = Some [(g, b)] ->
  let n := next_ref self in
  notify_me_if_gm_version_updated self w v sp =
    (mkDCFServer (worker_manager self)
       (<[w := [(n, n)]]> (model_version_req_dict self))
       (<[n := mkGreenlet w n v true]>
          (alter killed g (greenlets self)))
       (<[n := []]>
          (<[b := (default [] (queues self !! b)
                   ++ [QStr (superseded_msg w); QStopIteration])%list]>
             (queues self)))
       (S n) (callback_log self),
     RespBody n).
Proof.
  intros (Ha & Hv & Hr) Hd n. unfold notify_me_if_gm_version_updated.
  rewrite Ha, Hv, Hr. simpl. rewrite Hd. simpl.
  unfold queue_put, greenlet_kill, req_dict_pop,
    set_model_version_req_dict, set_next_ref, set_greenlets, set_queues. simpl.
  rewrite lookup_insert_eq, lookup_alter_eq, Hd. simpl.
  f_equal. f_equal.
  - apply map_eq. intros w'. destruct (decide (w = w')) as [->|Hne].
    + by rewrite !lookup_insert_eq.
    + by rewrite !lookup_insert_ne, lookup_alter_ne.
  - by rewrite insert_insert_eq, <- app_assoc.
Qed.

(** The state a greenlet leaves when it finds the version changed while
    its entry is the one in the table. *)
Lemma poll_delivers (self : DCFServer) (g : nat) (gr : greenlet) (e : nat * nat) :
  greenlets self !! g = Some gr ->
  g_alive gr = true ->
  model_version_req_dict self !! g_worker_id gr = Some [e] ->
  check_model_version_updated self g VersionChanged =
    mkDCFServer (worker_manager self)
      (<[g_worker_id gr := []]> (model_version_req_dict self))
      (alter killed g (greenlets self))
      (<[g_body gr := (default [] (queues self !! g_body gr)
                       ++ [QStr GLOBAL_MODEL_UPDATED_STRING; QStopIteration])%list]>
         (queues self))
      (next_ref self)
      (callback_log self ++ [CallReturnGlobalModel])%list.
Proof.
  intros Hg Halive Hd. unfold check_model_version_updated.
  rewrite Hg, Halive. simpl. rewrite Hd. simpl.
  unfold queue_put, greenlet_kill, req_dict_pop, log_call,
    set_model_version_req_dict, set_next_ref, set_greenlets, set_queues. simpl.
  rewrite lookup_insert_eq. simpl. f_equal.
  - apply map_eq. intros w'. destruct (decide (g_worker_id gr = w')) as [<-|Hne].
    + by rewrite lookup_insert_eq, lookup_alter_eq, Hd.
    + by rewrite lookup_insert_ne, lookup_alter_ne.
  - by rewrite insert_insert_eq, <- app_assoc.
Qed.

Lemma add_and_register_worker_same_waits (self : DCFServer) (now k sp : string) :
  same_waits self (fst (add_and_register_worker self now k sp)).
Proof.
  unfold add_and_register_worker.
  destruct (authenticate_and_add_worker _ _ _ _) as [[wm r]|e]; simpl; [|done].
  destruct (String.eqb _ _); simpl; [done|].
  destruct (negb _); simpl; [|done].
  destruct (set_registration_status _ _ _) as [[wm' ret]|e]; done.
Qed.

Lemma admin_add_worker_same_waits (self : DCFServer) (now k : string) (st : bool) :
  same_waits self (fst (admin_add_worker self now k st)).
Proof.
  unfold admin_add_worker.
  destruct (add_worker _ _ _) as [wm r]. destruct (py_tuple r) as [w ok].
  destruct (String.eqb _ _); simpl; [done|].
  destruct (negb ok); simpl; [done|].
  destruct (set_registration_status _ _ _) as [[wm' ret]|e]; simpl; [|done].
  destruct (String.eqb _ _); simpl; [done|]. by destruct st.
Qed.

Lemma admin_delete_worker_same_waits (self : DCFServer) (w : string) :
  same_waits self (fst (admin_delete_worker self w)).
Proof.
  unfold admin_delete_worker.
  destruct (set_registration_status _ _ _) as [[wm ret]|e]; simpl; [|done].
  destruct (remove_worker wm ret) as [wm' ret'].
  destruct (String.eqb ret' _); simpl;
    by destruct (negb (String.eqb ret INVALID_WORKER) && _).
Qed.

Lemma admin_set_worker_status_same_waits (self : DCFServer) (w : string) (st : bool) :
  same_waits self (fst (admin_set_worker_status self w st)).
Proof.
  unfold admin_set_worker_status.
  destruct (set_registration_status _ _ _) as [[wm ret]|e]; simpl; [|done].
  destruct (String.eqb _ _); simpl; [done|].
  by destruct (negb _ && st), (_ && negb st).
Qed.

Lemma same_waits_consistent (s s' : DCFServer) :
  same_waits s s' -> server_consistent s -> server_consistent s'.
Proof.
  intros (Hd & Hg & Hq & Hn) [He Hgr].
  split; rewrite ?Hd, ?Hg, ?Hn; auto.
Qed.

Lemma same_waits_over (b : nat) (s s' : DCFServer) :
  same_waits s s' -> wait_over b s -> wait_over b s'.
Proof.
  intros (Hd & Hg & Hq & Hn) [Ho Hde Hu].
  split; rewrite ?Hd, ?Hg, ?Hn; auto.
Qed.

Lemma wait_accepted_dec (self : DCFServer) (w sp : string) :
  wait_accepted self w sp \/ ~ wait_accepted self w sp.
Proof.
  unfold wait_accepted.
  destruct (is_worker_allowed (worker_manager self) w);
    destruct (verify_challenge (worker_manager self) w sp) as [[|]|e];
    destruct (is_worker_registered (worker_manager self) w);
    (by left) || (right; by intros (? & ? & ?)).
Qed.

Lemma lookup_alter_killed (gs : gmap nat greenlet) (g0 g : nat) (gr : greenlet) :
  alter killed g0 gs !! g = Some gr ->
  exists gr0, gs !! g = Some gr0 /\
              g_worker_id gr = g_worker_id gr0 /\ g_body gr = g_body gr0 /\
              (g_alive gr = true -> g <> g0 /\ g_alive gr0 = true).
Proof.
  destruct (decide (g0 = g)) as [->|Hne].
  - rewrite lookup_alter_eq. destruct (gs !! g) as [gr0|]; [|done].
    intros [= <-]. exists gr0. simpl. repeat split; auto; done.
  - rewrite lookup_alter_ne by done. intros Hg. exists gr.
    repeat split; auto.
Qed.

Lemma lookup_alter_killed_is_Some (gs : gmap nat greenlet) (g0 g : nat)
    (gr : greenlet) :
  gs !! g = Some gr ->
  exists gr', alter killed g0 gs !! g = Some gr' /\
              g_worker_id gr' = g_worker_id gr.
Proof.
  intros Hg. destruct (decide (g0 = g)) as [->|Hne].
  - rewrite lookup_alter_eq, Hg. by exists (killed gr).
  - rewrite lookup_alter_ne by done. by exists gr.
Qed.

(** Killing a greenlet whose worker has no other entry keeps the
    bookkeeping consistent. *)
Lemma notify_consistent (self : DCFServer) (w v sp : string) :
  server_consistent self ->
  server_consistent (fst (notify_me_if_gm_version_updated self w v sp)).
Proof.
  intros Hc. destruct (wait_accepted_dec self w sp) as [Hacc|Hrej].
  2:{ by rewrite notify_rejected. }
  destruct Hc as [He Hg].
  assert (forall g gr, greenlets self !! g = Some gr -> g <> next_ref self) as Hfresh.
  { intros g gr Hgr. destruct (Hg g gr Hgr) as (Hlt & _). lia. }
  destruct (model_version_req_dict self !! w) as [[|[g0 b0] [|e2 l]]|] eqn:Hd.
  - (* an empty list *)
    rewrite notify_fresh by auto. simpl. split; simpl.
    + intros w' l'. destruct (decide (w = w')) as [<-|Hne].
      * rewrite lookup_insert_eq. intros [= <-]. split; [simpl; lia|].
        intros g b Hin. apply list_elem_of_singleton in Hin as [= -> ->].
        split; [done|]. rewrite lookup_insert_eq. eauto.
      * rewrite lookup_insert_ne by done. intros Hl.
        destruct (He w' l' Hl) as [Hlen Hent]. split; [done|].
        intros g b Hin. destruct (Hent g b Hin) as (-> & gr & Hgr & Hw).
        split; [done|]. rewrite lookup_insert_ne by (symmetry; eauto). eauto.
    + intros g gr. destruct (decide (next_ref self = g)) as [<-|Hne].
      * rewrite lookup_insert_eq. intros [= <-]. simpl.
        split; [lia|]. split; [done|]. intros _. by rewrite lookup_insert_eq.
      * rewrite lookup_insert_ne by done. intros Hgr.
        destruct (Hg g gr Hgr) as (Hlt & Hb & Hal). split; [lia|]. split; [done|].
        intros Halive. specialize (Hal Halive).
        rewrite lookup_insert_ne; [done|]. intros Heq. rewrite <- Heq in Hal. congruence.
  - (* one pending request: it is superseded *)
    destruct (He w _ Hd) as [_ Hent0].
    destruct (Hent0 g0 b0) as (-> & gr0 & Hgr0 & Hw0); [by left|].
    rewrite (notify_supersedes self w v sp g0 g0) by auto. simpl. split; simpl.
    + intros w' l'. destruct (decide (w = w')) as [<-|Hne].
      * rewrite lookup_insert_eq. intros [= <-]. split; [simpl; lia|].
        intros g b Hin. apply list_elem_of_singleton in Hin as [= -> ->].
        split; [done|]. rewrite lookup_insert_eq. eauto.
      * rewrite lookup_insert_ne by done. intros Hl.
        destruct (He w' l' Hl) as [Hlen Hent]. split; [done|].
        intros g b Hin. destruct (Hent g b Hin) as (-> & gr & Hgr & Hw).
        split; [done|]. rewrite lookup_insert_ne by (symmetry; eauto).
        destruct (lookup_alter_killed_is_Some (greenlets self) g0 g gr Hgr)
          as (gr' & Hgr' & Hw'). exists gr'. split; [done|congruence].
    + intros g gr. destruct (decide (next_ref self = g)) as [<-|Hne].
      * rewrite lookup_insert_eq. intros [= <-]. simpl.
        split; [lia|]. split; [done|]. intros _. by rewrite lookup_insert_eq.
      * rewrite lookup_insert_ne by done. intros Hgr.
        apply lookup_alter_killed in Hgr as (gr1 & Hgr1 & Hw1 & Hb1 & Hal1).
        destruct (Hg g gr1 Hgr1) as (Hlt & Hb & Hal). split; [lia|].
        split; [congruence|].
        intros Halive. destruct (Hal1 Halive) as [Hne0 Halive1].
        specialize (Hal Halive1). rewrite Hw1.
        rewrite lookup_insert_ne; [done|]. intros Heq. rewrite <- Heq in Hal.
        rewrite Hd in Hal. congruence.
  - (* more than one entry: excluded *)
    destruct (He w _ Hd) as [Hlen _]. simpl in Hlen. lia.
  - (* no list yet *)
    rewrite notify_fresh by auto. simpl. split; simpl.
    + intros w' l'. destruct (decide (w = w')) as [<-|Hne].
      * rewrite lookup_insert_eq. intros [= <-]. split; [simpl; lia|].
        intros g b Hin. apply list_elem_of_singleton in Hin as [= -> ->].
        split; [done|]. rewrite lookup_insert_eq. eauto.
      * rewrite lookup_insert_ne by done. intros Hl.
        destruct (He w' l' Hl) as [Hlen Hent]. split; [done|].
        intros g b Hin. destruct (Hent g b Hin) as (-> & gr & Hgr & Hw).
        split; [done|]. rewrite lookup_insert_ne by (symmetry; eauto). eauto.
    + intros g gr. destruct (decide (next_ref self = g)) as [<-|Hne].
      * rewrite lookup_insert_eq. intros [= <-]. simpl.
        split; [lia|]. split; [done|]. intros _. by rewrite lookup_insert_eq.
      * rewrite lookup_insert_ne by done. intros Hgr.
        destruct (Hg g gr Hgr) as (Hlt & Hb & Hal). split; [lia|]. split; [done|].
        intros Halive. specialize (Hal Halive).
        rewrite lookup_insert_ne; [done|]. intros Heq. rewrite <- Heq in Hal. congruence.
Qed.

Lemma kill_consistent (self : DCFServer) (g : nat) :
  server_consistent self -> server_consistent (greenlet_kill self g).
Proof.
  intros [He Hg]. split; simpl.
  - intros w l Hl. destruct (He w l Hl) as [Hlen Hent]. split; [done|].
    intros g' b Hin. destruct (Hent g' b Hin) as (-> & gr & Hgr & Hw).
    split; [done|].
    destruct (lookup_alter_killed_is_Some (greenlets self) g g' gr Hgr)
      as (gr' & Hgr' & Hw'). exists gr'. split; [done|congruence].
  - intros g' gr Hgr.
    apply lookup_alter_killed in Hgr as (gr1 & Hgr1 & Hw1 & Hb1 & Hal1).
    destruct (Hg g' gr1 Hgr1) as (Hlt & Hb & Hal). split; [done|].
    split; [congruence|]. intros Halive. destruct (Hal1 Halive) as [_ Halive1].
    rewrite Hw1. auto.
Qed.

Lemma poll_consistent (self : DCFServer) (g : nat) (answer : poll_answer) :
  server_consistent self ->
  server_consistent (check_model_version_updated self g answer).
Proof.
  intros Hc.
  destruct (greenlets self !! g) as [gr|] eqn:Hgr.
  2:{ unfold check_model_version_updated. by rewrite Hgr. }
  destruct (g_alive gr) eqn:Halive.
  2:{ unfold check_model_version_updated. by rewrite Hgr, Halive. }
  destruct answer as [| |e].
  - unfold check_model_version_updated. by rewrite Hgr, Halive.
  - destruct Hc as [He Hg].
    destruct (Hg g gr Hgr) as (Hlt & Hb & Hal). specialize (Hal Halive).
    rewrite (poll_delivers self g gr _ Hgr Halive Hal). split; simpl.
    + intros w l. destruct (decide (g_worker_id gr = w)) as [<-|Hne].
      * rewrite lookup_insert_eq. intros [= <-]. split; [simpl; lia|].
        intros g' b Hin. by apply elem_of_nil in Hin.
      * rewrite lookup_insert_ne by done. intros Hl.
        destruct (He w l Hl) as [Hlen Hent]. split; [done|].
        intros g' b Hin. destruct (Hent g' b Hin) as (-> & gr' & Hgr' & Hw).
        split; [done|].
        destruct (lookup_alter_killed_is_Some (greenlets self) g g' gr' Hgr')
          as (gr2 & Hgr2 & Hw2). exists gr2. split; [done|congruence].
    + intros g' gr' Hgr'.
      apply lookup_alter_killed in Hgr' as (gr1 & Hgr1 & Hw1 & Hb1 & Hal1).
      destruct (Hg g' gr1 Hgr1) as (Hlt1 & Hbd1 & Hall1). split; [done|].
      split; [congruence|]. intros Halive'.
      destruct (Hal1 Halive') as [Hne Halive1]. specialize (Hall1 Halive1).
      rewrite Hw1. rewrite lookup_insert_ne; [done|].
      intros Heq. rewrite <- Heq in Hall1. rewrite Hal in Hall1. congruence.
  - unfold check_model_version_updated. rewrite Hgr, Halive. simpl.
    by apply kill_consistent.
Qed.

Lemma serve_same_waits (self : DCFServer) (ev : event) :
  match ev with
  | EvNotify _ _ _ | EvPoll _ _ => True
  | _ => same_waits self (serve self ev)
  end.
Proof.
  destruct ev; simpl; auto using add_and_register_worker_same_waits,
    admin_add_worker_same_waits, admin_delete_worker_same_waits,
    admin_set_worker_status_same_waits.
Qed.

Lemma serve_consistent (self : DCFServer) (ev : event) :
  server_consistent self -> server_consistent (serve self ev).
Proof.
  intros Hc. pose proof (serve_same_waits self ev) as Hsame.
  destruct ev; try (by eapply same_waits_consistent); simpl.
  - by apply notify_consistent.
  - by apply poll_consistent.
Qed.

Lemma new_server_consistent (wm : WorkerManager) :
  server_consistent (new_server wm).
Proof. split; simpl; intros *; by rewrite lookup_empty. Qed.

Lemma run_app (self : DCFServer) (evs evs' : list event) :
  run self (evs ++ evs') = run (run self evs) evs'.
Proof. unfold run. apply fold_left_app. Qed.

Lemma run_consistent (self : DCFServer) (evs : list event) :
  server_consistent self -> server_consistent (run self evs).
Proof.
  revert self. induction evs as [|ev evs IH]; intros self Hc; [done|].
  simpl. apply IH. by apply serve_consistent.
Qed.

(** Once a request is over, nothing is put on its queue any more. *)
Lemma serve_wait_over (b : nat) (self : DCFServer) (ev : event) :
  server_consistent self -> wait_over b self ->
  wait_over b (serve self ev) /\ queues (serve self ev) !! b = queues self !! b.
Proof.
  intros Hc Hover. pose proof (serve_same_waits self ev) as Hsame.
  destruct ev as [now k sp|now k st|w|w st|w v sp|g answer];
    try (split; [by eapply same_waits_over|by destruct Hsame as (_ & _ & -> & _)]).
  - (* a wait request *)
    simpl. destruct (wait_accepted_dec self w sp) as [Hacc|Hrej].
    2:{ by rewrite notify_rejected. }
    destruct Hc as [He Hg]. destruct Hover as [Ho Hde Hu].
    assert (forall l, model_version_req_dict self !! w = Some l ->
                      l = [] \/ exists g0, l = [(g0, g0)] /\ g0 <> b) as Hshape.
    { intros l Hl. destruct (He w l Hl) as [Hlen Hent].
      destruct l as [|[g0 b0] [|e2 l]]; [by left| |simpl in Hlen; lia].
      right. destruct (Hent g0 b0) as (-> & _); [by left|].
      exists g0. split; [done|]. apply (Hu w _ g0 g0 Hl). by left. }
    destruct (model_version_req_dict self !! w) as [l|] eqn:Hd.
    + destruct (Hshape l eq_refl) as [->|(g0 & -> & Hne0)].
      * rewrite notify_fresh by auto. simpl. split.
        -- split; simpl; [lia| |].
           ++ intros gr. rewrite lookup_insert_ne by lia. apply Hde.
           ++ intros w' l' g' b'. destruct (decide (w = w')) as [<-|Hne].
              ** rewrite lookup_insert_eq. intros [= <-] Hin.
                 apply list_elem_of_singleton in Hin as [= -> ->]. lia.
              ** rewrite lookup_insert_ne by done. apply Hu.
        -- rewrite lookup_insert_ne by lia. done.
      * rewrite (notify_supersedes self w v sp g0 g0) by auto. simpl. split.
        -- split; simpl; [lia| |].
           ++ intros gr. rewrite lookup_insert_ne by lia.
              intros Hgr. destruct (g_alive gr) eqn:Halive; [|done].
              apply lookup_alter_killed in Hgr as (gr1 & Hgr1 & _ & _ & Hal1).
              destruct (Hal1 Halive) as [_ Halive1].
              by rewrite (Hde gr1 Hgr1) in Halive1.
           ++ intros w' l' g' b'. destruct (decide (w = w')) as [<-|Hne].
              ** rewrite lookup_insert_eq. intros [= <-] Hin.
                 apply list_elem_of_singleton in Hin as [= -> ->]. lia.
              ** rewrite lookup_insert_ne by done. apply Hu.
        -- rewrite lookup_insert_ne by lia. by rewrite lookup_insert_ne.
    + rewrite notify_fresh by auto. simpl. split.
      * split; simpl; [lia| |].
        -- intros gr. rewrite lookup_insert_ne by lia. apply Hde.
        -- intros w' l' g' b'. destruct (decide (w = w')) as [<-|Hne].
           ++ rewrite lookup_insert_eq. intros [= <-] Hin.
              apply list_elem_of_singleton in Hin as [= -> ->]. lia.
           ++ rewrite lookup_insert_ne by done. apply Hu.
      * rewrite lookup_insert_ne by lia. done.
  - (* a turn of a greenlet *)
    simpl. destruct Hover as [Ho Hde Hu].
    destruct (greenlets self !! g) as [gr|] eqn:Hgr.
    2:{ unfold check_model_version_updated. by rewrite Hgr. }
    destruct (g_alive gr) eqn:Halive.
    2:{ unfold check_model_version_updated. by rewrite Hgr, Halive. }
    assert (g <> b) as Hgb.
    { intros ->. by rewrite (Hde gr Hgr) in Halive. }
    destruct answer as [| |e].
    + unfold check_model_version_updated. by rewrite Hgr, Halive.
    + destruct Hc as [He Hg].
      destruct (Hg g gr Hgr) as (Hlt & Hb & Hal). specialize (Hal Halive).
      rewrite (poll_delivers self g gr _ Hgr Halive Hal). simpl. split.
      * split; simpl; [done| |].
        -- intros gr'. intros Hgr'. destruct (g_alive gr') eqn:Halive'; [|done].
           apply lookup_alter_killed in Hgr' as (gr1 & Hgr1 & _ & _ & Hal1).
           destruct (Hal1 Halive') as [_ Halive1].
           by rewrite (Hde gr1 Hgr1) in Halive1.
        -- intros w' l' g' b'. destruct (decide (g_worker_id gr = w')) as [<-|Hne].
           ++ rewrite lookup_insert_eq. intros [= <-] Hin.
              by apply elem_of_nil in Hin.
           ++ rewrite lookup_insert_ne by done. apply Hu.
      * rewrite Hb. by rewrite lookup_insert_ne.
    + unfold check_model_version_updated. rewrite Hgr, Halive. simpl. split; [|done].
      split; simpl; [done| |done].
      intros gr'. intros Hgr'. destruct (g_alive gr') eqn:Halive'; [|done].
      apply lookup_alter_killed in Hgr' as (gr1 & Hgr1 & _ & _ & Hal1).
      destruct (Hal1 Halive') as [_ Halive1].
      by rewrite (Hde gr1 Hgr1) in Halive1.
Qed.

Lemma run_wait_over (b : nat) (evs : list event) (self : DCFServer) :
  server_consistent self -> wait_over b self ->
  queues (run self evs) !! b = queues self !! b.
Proof.
  revert self. induction evs as [|ev evs IH]; intros self Hc Hover; [done|].
  simpl. destruct (serve_wait_over b self ev Hc Hover) as [Hover' <-].
  apply IH; [by apply serve_consistent|done].
Qed.



End DCFServerFacts.

(* ===================================================================== *)
(** * Properties of the process bridges *)
(* ===================================================================== *)

Module BridgeFacts.
Import Bridge BridgeValues.

Lemma int_digits_of_uint (d : Decimal.uint) (acc : Z) :
  int_digits acc (encode (NilEmpty.string_of_uint d)) = Some (uint_val acc d).
Proof.
  revert acc. induction d as [|d IH|d IH|d IH|d IH|d IH|d IH|d IH|d IH|d IH|d IH];
    intros acc; [done|..]; apply (IH _).
Qed.

Lemma uint_val_acc (d : Decimal.uint) (acc : positive) :
  uint_val (Z.pos acc) d = Z.pos (Pos.of_uint_acc d acc).
Proof.
  revert acc. induction d as [|d IH|d IH|d IH|d IH|d IH|d IH|d IH|d IH|d IH|d IH];
    intros acc; [done|..]; cbn [uint_val Pos.of_uint_acc]; rewrite <- IH;
    f_equal; lia.
Qed.

Lemma uint_val_of_uint (d : Decimal.uint) :
  uint_val 0 d = Z.of_N (Pos.of_uint d).
Proof.
  induction d as [|d IH|d IH|d IH|d IH|d IH|d IH|d IH|d IH|d IH|d IH];
    [done|exact IH|..]; cbn [uint_val Pos.of_uint]; apply (uint_val_acc d _).
Qed.

Lemma int_unsigned_of_uint (d : Decimal.uint) :
  d <> Decimal.Nil ->
  int_unsigned (encode (NilEmpty.string_of_uint d)) = Some (uint_val 0 d).
Proof.
  destruct d; [done|..]; intros _; apply (int_digits_of_uint d _).
Qed.

Lemma lstrip_no_space (s : bytes) :
  Forall (fun c => is_space c = false) s -> lstrip s = s.
Proof. destruct 1 as [|c s Hc _]; [done|]. simpl. by rewrite Hc. Qed.

Lemma strip_no_space (s : bytes) :
  Forall (fun c => is_space c = false) s -> strip s = s.
Proof.
  intros Hs. unfold strip. rewrite (lstrip_no_space s Hs).
  rewrite lstrip_no_space; [apply rev_involutive|].
  apply Forall_forall. intros c Hc. rewrite list_elem_of_In, <- in_rev in Hc.
  rewrite Forall_forall in Hs. apply Hs. by apply list_elem_of_In.
Qed.

Lemma digits_no_space (d : Decimal.uint) :
  Forall (fun c => is_space c = false) (encode (NilEmpty.string_of_uint d)).
Proof. induction d; simpl; constructor; done. Qed.

(** [int(str(z))] is [z]. *)
Lemma py_int_py_str (z : Z) : py_int (py_str (PyInt z)) = Ret z.
Proof.
  unfold py_int, py_str.
  assert (forall p, int_unsigned (encode (NilEmpty.string_of_uint (Pos.to_uint p)))
                    = Some (Z.pos p)) as Hpos.
  { intros p. rewrite int_unsigned_of_uint by apply Unsigned.to_uint_nonnil.
    by rewrite uint_val_of_uint, Unsigned.of_to. }
  assert (forall p, NilZero.string_of_uint (Pos.to_uint p)
                    = NilEmpty.string_of_uint (Pos.to_uint p)) as Hnz.
  { intros p. pose proof (Unsigned.to_uint_nonnil p).
    by destruct (Pos.to_uint p). }
  destruct z as [|p|p]; [done| |].
  - cbn [Z.to_int NilZero.string_of_int]. rewrite Hnz.
    rewrite strip_no_space by apply digits_no_space.
    assert (int_signed (encode (NilEmpty.string_of_uint (Pos.to_uint p)))
            = int_unsigned (encode (NilEmpty.string_of_uint (Pos.to_uint p)))) as ->.
    { pose proof (Unsigned.to_uint_nonnil p). by destruct (Pos.to_uint p). }
    by rewrite Hpos.
  - cbn [Z.to_int NilZero.string_of_int]. rewrite Hnz.
    assert (encode (String "-" (NilEmpty.string_of_uint (Pos.to_uint p)))
            = "-"%byte :: encode (NilEmpty.string_of_uint (Pos.to_uint p))) as -> by done.
    rewrite strip_no_space by (constructor; [done|apply digits_no_space]).
    cbn [int_signed]. change (Byte.eqb "-" "-") with true. cbn iota.
    by rewrite Hpos.
Qed.

(** C9.  On the same request the two bridges do not agree.  Let the back
    end's predicate answer with the boolean [pred v] for every version
    [v].  Through [zmq_interface.py] the call for an integer version [n]
    sends the tag and the decimal text of [n] and returns the predicate's
    boolean.  Through [zqm_interface.py] the call returns a boolean for no
    version at all: a version that is not [bytes] makes [send_multipart]
    raise in the caller, and for a [bytes] version the back end raises in
    [socket.send], which does not take a [bool], so no reply is sent. *)
Theorem bridges_disagree (cb : callbacks) (pred : pyval -> bool) :
  (forall v, is_global_model_most_recent cb v = Ret (PyBool (pred v))) ->
  (forall n,
     ZMQ.is_global_model_most_recent_send cb (PyInt n)
     = Returned [encode "is_global_model_most_recent"; encode (py_str (PyInt n))]
                (PyBool (pred (PyInt n)))) /\
  (forall version,
     ZQM.is_global_model_most_recent_send cb version
     = match version with
       | PyBytes b =>
           NoReply [encode "is_global_model_most_recent"; b] (Some TypeError)
       | _ => FrontRaised TypeError
       end).
Proof.
  intros Hcb. split.
  - intros n. unfold ZMQ.is_global_model_most_recent_send, ZMQ._send, exchange.
    cbn [socket_send_multipart bind].
    unfold ZMQ.receive. cbn [item lookup list_lookup bind].
    change (tag_is (encode "is_global_model_most_recent") "server_args_request")
      with false.
    change (tag_is (encode "is_global_model_most_recent") "register_worker")
      with false.
    change (tag_is (encode "is_global_model_most_recent") "unregister_worker")
      with false.
    change (tag_is (encode "is_global_model_most_recent") "return_global_model")
      with false.
    change (tag_is (encode "is_global_model_most_recent")
                   "is_global_model_most_recent") with true.
    cbn iota. unfold decode, encode.
    rewrite string_of_list_byte_of_string.
    rewrite py_int_py_str. cbn [bind]. rewrite Hcb. done.
  - intros version.
    unfold ZQM.is_global_model_most_recent_send, ZQM._send, exchange.
    destruct version as [|x|z|s|b]; try done.
    cbn [socket_send_multipart bind].
    unfold ZQM.receive. cbn [item lookup list_lookup bind].
    change (tag_is (encode "is_global_model_most_recent") "server_args_request")
      with false.
    change (tag_is (encode "is_global_model_most_recent") "register_worker")
      with false.
    change (tag_is (encode "is_global_model_most_recent") "unregister_worker")
      with false.
    change (tag_is (encode "is_global_model_most_recent") "return_global_model")
      with false.
    change (tag_is (encode "is_global_model_most_recent")
                   "is_global_model_most_recent") with true.
    cbn iota. rewrite Hcb. done.
Qed.

End BridgeFacts.

(* ===================================================================== *)
(** * Further properties of the worker manager *)
(* ===================================================================== *)

Section RegistryFacts.
Context `{Externals}.

Lemma wm_run_app (self : WorkerManager) (calls calls' : list wm_call) :
  wm_run self (calls ++ calls') = wm_run (wm_run self calls) calls'.
Proof. unfold wm_run. apply fold_left_app. Qed.

Lemma wm_run_reachable (calls : list wm_call) (self : WorkerManager) :
  reachable self -> reachable (wm_run self calls).
Proof.
  revert self. induction calls as [|c calls IH]; intros self Hr; [done|].
  simpl. apply IH. by apply reach_step.
Qed.

Lemma wm_run_consistent (calls : list wm_call) (self : WorkerManager) :
  tables_consistent self -> tables_consistent (wm_run self calls).
Proof.
  revert self. induction calls as [|c calls IH]; intros self Hc; [done|].
  simpl. apply IH. by apply wm_step_consistent.
Qed.

Lemma wm_step_keys_of_allowed (self : WorkerManager) (c : wm_call) :
  tables_consistent self -> keys_of_allowed self -> keys_of_allowed (wm_step self c).
Proof.
  intros Hc Hk.
  assert (forall s now k,
            keys_of_allowed s -> keys_of_allowed (fst (_add_worker s now k))) as Hadd.
  { intros s now k Hs k' vk'.
    destruct (_add_worker_public_keys s now k) as [-> _].
    destruct (_add_worker_monotone s now k) as [Hal _].
    intros Hk'. destruct (Hs k' vk' Hk') as [Hin Hv]. split; [by apply Hal|done]. }
  destruct c as [now k|now k sp|w b|w]; simpl.
  - unfold add_worker. destruct (do_public_key_auth self) eqn:Hauth; [|by apply Hadd].
    unfold add_public_key. rewrite Hauth. simpl.
    destruct (public_keys self !! k) as [vk|] eqn:Hlk; simpl; [by apply Hadd|].
    destruct (VerifyKey (encode k)) as [vk|e] eqn:Hvk; simpl; [|done].
    set (s1 := set_public_keys self (<[k:=vk]> (public_keys self))).
    assert (do_public_key_auth s1 = true) as Hauth1 by done.
    assert (is_Some (public_keys s1 !! k)) as Hk1.
    { unfold s1. simpl. rewrite lookup_insert_eq. eauto. }
    destruct (_add_worker_stored_key s1 now k Hauth1 Hk1) as (_ & Hin & _ & _ & _).
    destruct (_add_worker_public_keys s1 now k) as [Hp _].
    destruct (_add_worker_monotone s1 now k) as [Hal _].
    intros k' vk'. rewrite Hp. unfold s1 at 1. simpl.
    destruct (decide (k = k')) as [<-|Hne].
    + rewrite lookup_insert_eq. intros [= <-]. done.
    + rewrite lookup_insert_ne by done. intros Hk'.
      destruct (Hk k' vk' Hk') as [Hin' Hv]. split; [|done].
      apply Hal. done.
  - unfold authenticate_and_add_worker.
    destruct (authenticate_worker self k sp) as [[|]|e]; simpl; [|done|done].
    by apply Hadd.
  - destruct (set_registration_status self w b) as [[self' ret]|e] eqn:Hs; [|done].
    apply set_registration_status_fields in Hs as (Ha & Hp & _).
    intros k vk. rewrite Hp, Ha. apply Hk.
  - destruct (decide (w ∈ allowed_workers self)) as [Hin|Hnin].
    2:{ by rewrite remove_worker_not_allowed. }
    destruct (remove_worker_allowed self w Hin) as (_ & Ha & _ & Hp & _).
    intros k vk. rewrite Hp, Ha.
    destruct (do_public_key_auth self) eqn:Hauth.
    + destruct (decide (w = k)) as [->|Hne]; [by rewrite lookup_delete_eq|].
      rewrite lookup_delete_ne by done. intros Hk'.
      destruct (Hk k vk Hk') as [Hin' Hv]. split; [|done].
      apply py_list_remove_other; [congruence|done].
    + rewrite (no_keys_when_unsafe self Hc Hauth). by rewrite lookup_empty.
Qed.

Lemma wm_run_keys_of_allowed (calls : list wm_call) (self : WorkerManager) :
  tables_consistent self -> keys_of_allowed self ->
  keys_of_allowed (wm_run self calls).
Proof.
  revert self. induction calls as [|c calls IH]; intros self Hc Hk; [done|].
  simpl. apply IH; [by apply wm_step_consistent|by apply wm_step_keys_of_allowed].
Qed.

Lemma new_manager_keys_of_allowed (safe : bool) (db : option (list string)) :
  keys_of_allowed (new_manager safe db).
Proof. intros k vk. simpl. by rewrite lookup_empty. Qed.

Lemma wm_run_auth (calls : list wm_call) (self : WorkerManager) :
  do_public_key_auth (wm_run self calls) = do_public_key_auth self.
Proof. apply fold_wm_step_auth. Qed.

(** X1.  After any sequence of registry calls on a fresh manager: no
    worker is listed twice in [allowed_workers]; every allowed worker has
    an entry in [registered_workers]; in safe mode the workers with a
    stored verify key are exactly the allowed ones; in unsafe mode no key
    is ever stored. *)
Theorem registry_tables_invariant (safe : bool) (db : option (list string))
    (calls : list wm_call) :
  let self := wm_run (new_manager safe db) calls in
  NoDup (allowed_workers self) /\
  (forall w, is_worker_allowed self w = true ->
             is_Some (registered_workers self !! w)) /\
  (if safe
   then forall w, is_worker_allowed self w = true
                  <-> is_Some (public_keys self !! w)
   else public_keys self = ∅).
Proof.
  intros self.
  assert (tables_consistent self) as Hc
    by apply wm_run_consistent, new_manager_consistent.
  assert (keys_of_allowed self) as Hk
    by (apply wm_run_keys_of_allowed;
        [apply new_manager_consistent|apply new_manager_keys_of_allowed]).
  assert (do_public_key_auth self = safe) as Hauth by apply wm_run_auth.
  destruct Hc as [Hnd Hst Hkey Hno].
  split; [done|]. split.
  - intros w Hw. apply Hst. by apply py_in_true.
  - destruct safe; [|by apply Hno].
    intros w. unfold is_worker_allowed. rewrite py_in_true. split.
    + by apply Hkey.
    + intros [vk Hvk]. by destruct (Hk w vk Hvk).
Qed.

(** X2.  In a state reached by registry calls [set_registration_status]
    never raises.  For an allowed worker it returns the worker's id, sets
    that worker's status and no other; for any other id it returns
    [INVALID_WORKER] and changes nothing. *)
Theorem set_registration_status_returns (safe : bool) (db : option (list string))
    (calls : list wm_call) (worker_id : string) (should_register : bool) :
  let self := wm_run (new_manager safe db) calls in
  exists self',
    set_registration_status self worker_id should_register
    = Ret (self', if is_worker_allowed self worker_id then worker_id
                  else INVALID_WORKER) /\
    (if is_worker_allowed self worker_id then
       is_worker_registered self' worker_id = should_register /\
       (forall w, w <> worker_id ->
                  is_worker_registered self' w = is_worker_registered self w) /\
       allowed_workers self' = allowed_workers self /\
       public_keys self' = public_keys self
     else self' = self).
Proof.
  intros self.
  assert (tables_consistent self) as Hc
    by apply wm_run_consistent, new_manager_consistent.
  unfold set_registration_status, is_worker_allowed.
  destruct (py_in worker_id (allowed_workers self)) eqn:Hin.
  - apply py_in_true in Hin.
    destruct (allowed_have_status self Hc worker_id Hin) as [old Hold].
    rewrite Hold. eexists. split; [done|].
    unfold is_worker_registered. simpl. rewrite lookup_insert_eq.
    repeat split; auto.
    intros w Hne. by rewrite lookup_insert_ne.
  - eexists. split; done.
Qed.

Lemma unhexlify_length (bs b : bytes) :
  unhexlify bs = Some b -> List.length bs = (2 * List.length b)%nat.
Proof.
  revert b. induction bs as [bs IH] using (induction_ltof1 _ (@List.length byte)).
  unfold ltof in IH. intros b.
  destruct bs as [|h [|l rest]]; simpl.
  - by intros [= <-].
  - done.
  - destruct (hex_val h), (hex_val l); try done.
    destruct (Byte.of_N _); [|done].
    destruct (unhexlify rest) as [r|] eqn:Hr; [|done].
    intros [= <-]. simpl. rewrite (IH rest) with (b := r); [lia|simpl; lia|done].
Qed.

Lemma encode_length (s : string) : List.length (encode s) = String.length s.
Proof.
  unfold encode, list_byte_of_string. rewrite length_map.
  induction s as [|c s IH]; simpl; [done|]. by rewrite IH.
Qed.

(** A text that [VerifyKey] accepts has 64 characters. *)
Lemma VerifyKey_length (k : string) (vk : bytes) :
  VerifyKey (encode k) = Ret vk -> String.length k = 64%nat.
Proof.
  unfold VerifyKey, HexEncoder_decode.
  destruct (unhexlify (encode k)) as [b|] eqn:Hb; simpl; [|done].
  destruct (Nat.eqb (List.length b) crypto_sign_PUBLICKEYBYTES) eqn:Hlen; [|done].
  intros _. apply Nat.eqb_eq in Hlen. apply unhexlify_length in Hb.
  rewrite encode_length in Hb. rewrite Hb, Hlen. done.
Qed.

Lemma _add_worker_db (s : WorkerManager) (now k : string) :
  public_keys_db (fst (_add_worker s now k))
  = match snd (_add_worker s now k) with
    | Added _ => option_map (fun docs => docs ++ [k])%list (public_keys_db s)
    | _ => public_keys_db s
    end.
Proof.
  unfold _add_worker. destruct (_ && _); [done|]. destruct (negb _); [|done].
  simpl. destruct (public_keys_db s) eqn:Hdb; simpl; by rewrite ?Hdb.
Qed.

(** What [add_worker] does in safe mode when the tables are consistent. *)
Lemma add_worker_safe (self : WorkerManager) (now k : string) :
  tables_consistent self -> keys_of_allowed self ->
  do_public_key_auth self = true ->
  match add_worker self now k with
  | (self', r) =>
      if is_worker_allowed self k then self' = self /\ r = AddedPreviously k
      else
        match VerifyKey (encode k) with
        | Ret vk =>
            r = Added k /\
            allowed_workers self' = (allowed_workers self ++ [k])%list /\
            registered_workers self' = <[k := false]> (registered_workers self) /\
            public_keys self' = <[k := vk]> (public_keys self) /\
            public_keys_db self' =
              option_map (fun docs => docs ++ [k])%list (public_keys_db self) /\
            do_public_key_auth self' = true
        | Raise _ => self' = self /\ r = InvalidKey
        end
  end.
Proof.
  intros Hc Hk Hauth. unfold add_worker, is_worker_allowed. rewrite Hauth.
  unfold add_public_key. rewrite Hauth. simpl.
  destruct (py_in k (allowed_workers self)) eqn:Hin.
  - apply py_in_true in Hin.
    destruct (allowed_have_key self Hc Hauth k Hin) as [vk Hvk]. rewrite Hvk. simpl.
    destruct (_add_worker_stored_key self now k Hauth) as (_ & _ & _ & _ & Hprev);
      [eauto|].
    by rewrite Hprev.
  - apply py_in_false in Hin.
    assert (public_keys self !! k = None) as Hnone.
    { destruct (public_keys self !! k) as [vk|] eqn:Hvk; [|done].
      by destruct (Hk k vk Hvk). }
    rewrite Hnone.
    destruct (VerifyKey (encode k)) as [vk|e] eqn:Hvk; simpl; [|done].
    set (s1 := set_public_keys self (<[k:=vk]> (public_keys self))).
    assert (generate_id_for_worker s1 now k = k) as Hid.
    { unfold generate_id_for_worker. simpl. by rewrite Hauth. }
    pose proof (_add_worker_added s1 now k) as Hadd. cbv zeta in Hadd.
    rewrite Hid in Hadd.
    destruct Hadd as (Hr & Ha & Hrw & Hp & Hd).
    { right. unfold s1. simpl. rewrite lookup_insert_eq. eauto. }
    { done. }
    pose proof (_add_worker_db s1 now k) as Hdb.
    destruct (_add_worker s1 now k) as [self' r]. simpl in *.
    rewrite Hr in Hdb. repeat split; try done. by rewrite Hd.
Qed.

(** X3.  [add_worker] in safe mode, in a state reached by registry calls:
    a key that is already allowed changes nothing and is reported as added
    previously; a new key that [VerifyKey] accepts (64 hexadecimal digits)
    is appended to the allowed workers with the status false and its key
    stored; any other text is refused with [(INVALID_WORKER, False)] and
    nothing changes. *)
Theorem add_worker_safe_mode (db : option (list string)) (calls : list wm_call)
    (now k : string) :
  let self := wm_run (new_manager true db) calls in
  let self' := fst (add_worker self now k) in
  let r := snd (add_worker self now k) in
  (if is_worker_allowed self k then self' = self /\ py_tuple r = (k, false)
   else
     match VerifyKey (encode k) with
     | Ret vk =>
         py_tuple r = (k, true) /\ String.length k = 64%nat /\
         allowed_workers self' = (allowed_workers self ++ [k])%list /\
         is_worker_registered self' k = false /\
         public_keys self' !! k = Some vk
     | Raise _ => self' = self /\ py_tuple r = (INVALID_WORKER, false)
     end).
Proof.
  intros self.
  assert (tables_consistent self) as Hc
    by apply wm_run_consistent, new_manager_consistent.
  assert (keys_of_allowed self) as Hk
    by (apply wm_run_keys_of_allowed;
        [apply new_manager_consistent|apply new_manager_keys_of_allowed]).
  assert (do_public_key_auth self = true) as Hauth by apply wm_run_auth.
  pose proof (add_worker_safe self now k Hc Hk Hauth) as Hadd.
  destruct (add_worker self now k) as [self' r]. simpl.
  destruct (is_worker_allowed self k).
  - by destruct Hadd as [-> ->].
  - destruct (VerifyKey (encode k)) as [vk|e] eqn:Hvk.
    + destruct Hadd as (-> & Ha & Hr & Hp & _). split; [done|].
      split; [by eapply VerifyKey_length|]. split; [done|].
      unfold is_worker_registered. rewrite Hr, Hp, !lookup_insert_eq. done.
    + by destruct Hadd as [-> ->].
Qed.

(** X4.  In safe mode, removing an allowed worker and adding it again
    gives a worker that is allowed and not registered, whatever its
    status was before the removal. *)
Theorem remove_then_add_resets_status (db : option (list string))
    (calls : list wm_call) (now worker_id : string) :
  let self := wm_run (new_manager true db) calls in
  is_worker_allowed self worker_id = true ->
  let self1 := fst (remove_worker self worker_id) in
  let self2 := fst (add_worker self1 now worker_id) in
  py_tuple (snd (add_worker self1 now worker_id)) = (worker_id, true) /\
  is_worker_allowed self2 worker_id = true /\
  is_worker_registered self2 worker_id = false /\
  allowed_workers self2
    = (py_list_remove worker_id (allowed_workers self) ++ [worker_id])%list.
Proof.
  intros self Hallowed self1.
  assert (tables_consistent self) as Hc
    by apply wm_run_consistent, new_manager_consistent.
  assert (keys_of_allowed self) as Hk
    by (apply wm_run_keys_of_allowed;
        [apply new_manager_consistent|apply new_manager_keys_of_allowed]).
  assert (do_public_key_auth self = true) as Hauth by apply wm_run_auth.
  assert (self1 = wm_step self (CallRemoveWorker worker_id)) as Hs1 by done.
  assert (tables_consistent self1) as Hc1
    by (rewrite Hs1; by apply wm_step_consistent).
  assert (keys_of_allowed self1) as Hk1
    by (rewrite Hs1; by apply wm_step_keys_of_allowed).
  assert (do_public_key_auth self1 = true) as Hauth1
    by (rewrite Hs1; by rewrite wm_step_auth).
  apply py_in_true in Hallowed.
  destruct (allowed_have_key self Hc Hauth worker_id Hallowed) as [vk Hvk].
  destruct (Hk worker_id vk Hvk) as [_ Hvalid].
  destruct (remove_worker_allowed self worker_id Hallowed) as (_ & Ha & _).
  fold self1 in Ha.
  pose proof (add_worker_safe self1 now worker_id Hc1 Hk1 Hauth1) as Hadd.
  assert (is_worker_allowed self1 worker_id = false) as Hgone.
  { apply py_in_false. rewrite Ha. apply py_list_remove_gone.
    apply (allowed_nodup self Hc). }
  rewrite Hgone, Hvalid in Hadd.
  destruct (add_worker self1 now worker_id) as [self2 r]. simpl.
  destruct Hadd as (-> & Ha2 & Hr2 & _). split; [done|].
  split; [|split].
  - apply py_in_true. rewrite Ha2. apply elem_of_app. right.
    by apply list_elem_of_singleton.
  - unfold is_worker_registered. by rewrite Hr2, lookup_insert_eq.
  - by rewrite Ha2, Ha.
Qed.

Lemma filter_py_list_remove (w : string) (l : list string) :
  NoDup l ->
  List.filter (fun k => negb (String.eqb k w)) l = py_list_remove w l.
Proof.
  induction 1 as [|x l Hx Hl IH]; simpl; [done|].
  destruct (decide (w = x)) as [->|Hne].
  - rewrite String.eqb_refl. simpl.
    clear IH Hl. induction l as [|y l IH]; simpl; [done|].
    apply not_elem_of_cons in Hx as [Hxy Hx].
    destruct (String.eqb_spec y x) as [->|_]; [done|]. simpl. by rewrite IH.
  - destruct (String.eqb_spec x w) as [->|_]; [done|]. simpl. by rewrite IH.
Qed.

Lemma wm_step_db_mirrors (self : WorkerManager) (c : wm_call) :
  tables_consistent self -> keys_of_allowed self ->
  do_public_key_auth self = true ->
  db_mirrors_allowed self -> db_mirrors_allowed (wm_step self c).
Proof.
  intros Hc Hk Hauth Hdb.
  assert (forall now k,
            is_Some (public_keys self !! k) ->
            db_mirrors_allowed (fst (_add_worker self now k))) as Hadd.
  { intros now k Hsome.
    assert (generate_id_for_worker self now k = k) as Hid.
    { unfold generate_id_for_worker. by rewrite Hauth. }
    unfold _add_worker. rewrite Hid, Hauth.
    destruct Hsome as [vk Hvk]. rewrite Hvk.
    rewrite bool_decide_eq_false_2 by done. simpl.
    destruct (py_in k (allowed_workers self)); simpl; [done|].
    unfold db_mirrors_allowed in *.
    destruct (public_keys_db self) as [docs|] eqn:Hdocs; simpl; [|by rewrite Hdocs].
    intros docs' [= <-]. by rewrite (Hdb docs eq_refl). }
  destruct c as [now k|now k sp|w b|w]; simpl.
  - pose proof (add_worker_safe self now k Hc Hk Hauth) as Hsafe.
    destruct (add_worker self now k) as [self' r]. simpl.
    destruct (is_worker_allowed self k); [by destruct Hsafe as [-> _]|].
    destruct (VerifyKey (encode k)); [|by destruct Hsafe as [-> _]].
    destruct Hsafe as (_ & Ha & _ & _ & Hd & _).
    intros docs'. rewrite Hd, Ha.
    destruct (public_keys_db self) as [docs|] eqn:Hdocs; simpl; [|done].
    intros [= <-]. by rewrite (Hdb docs Hdocs).
  - unfold authenticate_and_add_worker.
    unfold authenticate_worker. rewrite Hauth. simpl.
    destruct (public_keys self !! k) as [vk|] eqn:Hvk; simpl; [|done].
    destruct (VerifyKey_verify vk (encode sp)) as [m|[]]; simpl; try done.
    apply Hadd. eauto.
  - destruct (set_registration_status self w b) as [[self' ret]|e] eqn:Hs; [|done].
    apply set_registration_status_fields in Hs as (Ha & _ & Hd & _).
    intros docs. rewrite Hd, Ha. apply Hdb.
  - destruct (decide (w ∈ allowed_workers self)) as [Hin|Hnin].
    2:{ by rewrite remove_worker_not_allowed. }
    destruct (remove_worker_allowed self w Hin) as (_ & Ha & _ & _ & Hd & _).
    intros docs'. rewrite Hd, Ha.
    destruct (public_keys_db self) as [docs|] eqn:Hdocs; simpl; [|done].
    intros [= <-]. rewrite (Hdb docs Hdocs).
    apply filter_py_list_remove, (allowed_nodup self Hc).
Qed.

Lemma wm_run_db_mirrors (calls : list wm_call) (self : WorkerManager) :
  tables_consistent self -> keys_of_allowed self ->
  do_public_key_auth self = true ->
  db_mirrors_allowed self -> db_mirrors_allowed (wm_run self calls).
Proof.
  revert self. induction calls as [|c calls IH]; intros self Hc Hk Hauth Hdb;
    [done|].
  simpl. apply IH.
  - by apply wm_step_consistent.
  - by apply wm_step_keys_of_allowed.
  - by rewrite wm_step_auth.
  - by apply wm_step_db_mirrors.
Qed.

Lemma wm_step_db_opened (self : WorkerManager) (c : wm_call) :
  is_Some (public_keys_db (wm_step self c)) <-> is_Some (public_keys_db self).
Proof.
  assert (forall s now k, is_Some (public_keys_db (fst (_add_worker s now k)))
                          <-> is_Some (public_keys_db s)) as Hadd.
  { intros s now k. rewrite _add_worker_db.
    destruct (snd (_add_worker s now k)); try done.
    destruct (public_keys_db s); simpl; [|done].
    split; intros _; eauto. }
  destruct c as [now k|now k sp|w b|w]; simpl.
  - unfold add_worker.
    destruct (add_public_key_fields self k) as (_ & _ & Hdb & _).
    destruct (do_public_key_auth self); [|apply Hadd].
    destruct (add_public_key self k) as [s1 ok]; simpl in *.
    destruct ok; simpl; [|by rewrite Hdb]. rewrite Hadd. by rewrite Hdb.
  - unfold authenticate_and_add_worker.
    destruct (authenticate_worker self k sp) as [[|]|e]; simpl; [|done|done].
    apply Hadd.
  - destruct (set_registration_status self w b) as [[self' ret]|e] eqn:Hs; [|done].
    apply set_registration_status_fields in Hs as (_ & _ & -> & _). done.
  - destruct (decide (w ∈ allowed_workers self)) as [Hin|Hnin].
    2:{ by rewrite remove_worker_not_allowed. }
    destruct (remove_worker_allowed self w Hin) as (_ & _ & _ & _ & -> & _).
    destruct (public_keys_db self); simpl; [|done]. split; intros _; eauto.
Qed.

Lemma wm_run_db_opened (calls : list wm_call) (self : WorkerManager) :
  is_Some (public_keys_db (wm_run self calls)) <-> is_Some (public_keys_db self).
Proof.
  revert self. induction calls as [|c calls IH]; intros self; [done|].
  simpl. rewrite IH. apply wm_step_db_opened.
Qed.

Lemma wm_run_db_lists_allowed (calls : list wm_call) :
  public_keys_db (wm_run (new_manager true (Some [])) calls)
  = Some (allowed_workers (wm_run (new_manager true (Some [])) calls)).
Proof.
  assert (db_mirrors_allowed (wm_run (new_manager true (Some [])) calls)) as Hdb.
  { apply wm_run_db_mirrors; [apply new_manager_consistent|
      apply new_manager_keys_of_allowed|done|].
    intros docs. simpl. by intros [= <-]. }
  assert (is_Some (public_keys_db (wm_run (new_manager true (Some [])) calls)))
    as [docs Hdocs] by (apply wm_run_db_opened; simpl; eauto).
  rewrite Hdocs. f_equal. by apply Hdb.
Qed.

Lemma wm_run_db_none (calls : list wm_call) (safe : bool) :
  public_keys_db (wm_run (new_manager safe None) calls) = None.
Proof.
  destruct (public_keys_db (wm_run (new_manager safe None) calls))
    as [docs|] eqn:Hd; [|done].
  assert (is_Some (public_keys_db (new_manager safe None))) as [docs' Hd'].
  { apply (wm_run_db_opened calls). rewrite Hd. eauto. }
  by destruct safe.
Qed.

(** X5.  A safe-mode manager that starts with an emptied keys database
    keeps in it, after any sequence of registry calls, exactly the allowed
    workers, in the order of [allowed_workers]; a manager without a
    database never gets one. *)
Theorem keys_db_lists_allowed_workers (calls : list wm_call) :
  public_keys_db (wm_run (new_manager true (Some [])) calls)
  = Some (allowed_workers (wm_run (new_manager true (Some [])) calls)) /\
  (forall safe, public_keys_db (wm_run (new_manager safe None) calls) = None).
Proof. split; [apply wm_run_db_lists_allowed|intros safe; apply wm_run_db_none]. Qed.

(** The loop of [__init__] is a sequence of [add_worker] calls. *)
Lemma init_loop_wm_run (keys : list string) (self : WorkerManager) :
  List.fold_left (fun self key => fst (add_worker self "" key)) keys self
  = wm_run self (List.map (CallAddWorker "") keys).
Proof.
  revert self. induction keys as [|k keys IH]; intros self; [done|].
  simpl. apply IH.
Qed.

Lemma add_worker_nobody_registered (self : WorkerManager) (now k : string) :
  nobody_registered self -> nobody_registered (fst (add_worker self now k)).
Proof.
  intros Hn.
  assert (forall s, nobody_registered s ->
                    nobody_registered (fst (_add_worker s now k))) as Hadd.
  { intros s Hs w. destruct (_add_worker_monotone s now k) as [_ Hrg].
    specialize (Hs w). unfold is_worker_registered in *.
    destruct (registered_workers (fst (_add_worker s now k)) !! w) as [[|]|] eqn:Hw;
      [|done|done].
    by rewrite (Hrg w Hw) in Hs. }
  unfold add_worker.
  destruct (add_public_key_fields self k) as (_ & Hr & _).
  destruct (do_public_key_auth self); [|by apply Hadd].
  destruct (add_public_key self k) as [s1 ok]; simpl in *.
  assert (nobody_registered s1) as Hn1.
  { intros w. unfold is_worker_registered. rewrite Hr. apply Hn. }
  destruct ok; simpl; [by apply Hadd|done].
Qed.

Lemma init_loop_allowed (keys : list string) (self : WorkerManager) (w : string) :
  tables_consistent self -> keys_of_allowed self ->
  do_public_key_auth self = true ->
  is_worker_allowed
    (List.fold_left (fun self key => fst (add_worker self "" key)) keys self) w
  = is_worker_allowed self w
    || bool_decide (w ∈ keys) && returns (VerifyKey (encode w)).
Proof.
  revert self. induction keys as [|k keys IH]; intros self Hc Hk Hauth.
  - simpl. by rewrite orb_false_r.
  - simpl. rewrite IH.
    2:{ by apply add_worker_consistent. }
    2:{ by apply (wm_step_keys_of_allowed self (CallAddWorker "" k)). }
    2:{ rewrite <- Hauth. apply (wm_step_auth self (CallAddWorker "" k)). }
    pose proof (add_worker_safe self "" k Hc Hk Hauth) as Hadd.
    destruct (add_worker self "" k) as [self' r]. simpl.
    destruct (decide (w = k)) as [->|Hne].
    + rewrite (bool_decide_eq_true_2 (k ∈ k :: keys)) by (by left).
      destruct (is_worker_allowed self k) eqn:Hal.
      * destruct Hadd as [-> _]. by rewrite Hal.
      * destruct (VerifyKey (encode k)) as [vk|e] eqn:Hvk.
        -- destruct Hadd as (_ & Ha & _).
           assert (is_worker_allowed self' k = true) as ->.
           { apply py_in_true. rewrite Ha. apply elem_of_app. right.
             by apply list_elem_of_singleton. }
           done.
        -- destruct Hadd as [-> _]. rewrite Hal. simpl.
           by rewrite andb_false_r.
    + assert (bool_decide (w ∈ k :: keys) = bool_decide (w ∈ keys)) as ->.
      { apply bool_decide_ext. rewrite elem_of_cons. naive_solver. }
      f_equal.
      destruct (is_worker_allowed self k).
      * by destruct Hadd as [-> _].
      * destruct (VerifyKey (encode k)) as [vk|e].
        -- destruct Hadd as (_ & Ha & _). unfold is_worker_allowed, py_in.
           rewrite Ha. apply bool_decide_ext. rewrite elem_of_app.
           rewrite list_elem_of_singleton. naive_solver.
        -- by destruct Hadd as [-> _].
Qed.

(** [__init__] in safe mode. *)
Lemma WorkerManager_init_safe (key_list_file db : option (list string))
    (keys_to_load : list string) :
  exists self,
    WorkerManager_init true key_list_file db keys_to_load = Ret self /\
    (forall w, is_worker_allowed self w
               = bool_decide (w ∈ keys_to_load) && returns (VerifyKey (encode w))) /\
    (forall w, is_worker_registered self w = false) /\
    public_keys_db self = option_map (fun _ => allowed_workers self) db /\
    NoDup (allowed_workers self).
Proof.
  unfold WorkerManager_init. simpl.
  eexists. split; [done|].
  set (s0 := new_manager true (option_map (fun _ => []) db)).
  assert (tables_consistent s0) as Hc by apply new_manager_consistent.
  assert (keys_of_allowed s0) as Hk by apply new_manager_keys_of_allowed.
  split; [|split; [|split]].
  - intros w. by rewrite (init_loop_allowed keys_to_load s0 w Hc Hk eq_refl).
  - assert (nobody_registered s0) as Hn by (intros w; done).
    revert Hn. generalize s0.
    induction keys_to_load as [|k keys IH]; intros s Hn; [done|].
    simpl. apply IH. by apply add_worker_nobody_registered.
  - unfold s0. rewrite init_loop_wm_run. destruct db as [docs|]; simpl.
    + apply wm_run_db_lists_allowed.
    + apply wm_run_db_none.
  - rewrite init_loop_wm_run. by apply wm_run_consistent.
Qed.



Lemma _add_worker_keeps_entries (s : WorkerManager) (now k w : string) :
  is_Some (registered_workers s !! w) ->
  is_Some (registered_workers (fst (_add_worker s now k)) !! w).
Proof.
  intros Hs. unfold _add_worker. destruct (_ && _); [done|].
  destruct (negb _); [|done]. simpl.
  assert (is_Some (<[generate_id_for_worker s now k := false]>
                     (registered_workers s) !! w)) as Hins.
  { apply lookup_insert_is_Some.
    destruct (decide (generate_id_for_worker s now k = w)); auto. }
  by destruct (public_keys_db s).
Qed.

Lemma wm_step_keeps_entries (self : WorkerManager) (c : wm_call) (w : string) :
  is_Some (registered_workers self !! w) ->
  is_Some (registered_workers (wm_step self c) !! w).
Proof.
  intros Hs. destruct c as [now k|now k sp|w' b0|w']; simpl.
  - unfold add_worker.
    destruct (add_public_key_fields self k) as (_ & Hr & _).
    destruct (do_public_key_auth self); [|by apply _add_worker_keeps_entries].
    destruct (add_public_key self k) as [s1 ok]; simpl in *.
    destruct ok; simpl; [|by rewrite Hr].
    apply _add_worker_keeps_entries. by rewrite Hr.
  - unfold authenticate_and_add_worker.
    destruct (authenticate_worker self k sp) as [[|]|e]; simpl; [|done|done].
    by apply _add_worker_keeps_entries.
  - destruct (set_registration_status self w' b0) as [[self' ret]|e] eqn:Hset;
      [|done].
    apply set_registration_status_fields in Hset
      as (_ & _ & _ & _ & [(_ & _ & ->)|(_ & _ & ->)]); [|done].
    apply lookup_insert_is_Some. destruct (decide (w' = w)); auto.
  - destruct (decide (w' ∈ allowed_workers self)) as [Hin|Hnin].
    + by destruct (remove_worker_allowed self w' Hin) as (_ & _ & -> & _).
    + by rewrite remove_worker_not_allowed.
Qed.

(** X8.  [get_worker_list] never forgets a worker: one that is listed
    stays listed after any registry call, [remove_worker] included. *)
Theorem get_worker_list_keeps_workers (self : WorkerManager)
    (calls : list wm_call) (w : string) (b : bool) :
  (w, b) ∈ get_worker_list self ->
  exists b', (w, b') ∈ get_worker_list (wm_run self calls).
Proof.
  unfold get_worker_list. rewrite elem_of_map_to_list. intros Hw.
  assert (is_Some (registered_workers (wm_run self calls) !! w)) as [b' Hb'].
  { assert (is_Some (registered_workers self !! w)) as Hs by eauto.
    clear Hw. revert self Hs.
    induction calls as [|c calls IH]; intros self Hs; [done|].
    simpl. apply IH. by apply wm_step_keeps_entries. }
  exists b'. by apply elem_of_map_to_list.
Qed.

End RegistryFacts.

(* ===================================================================== *)
(** * Further properties of the server's handlers *)
(* ===================================================================== *)

Section HandlerFacts.
Context `{ServerExternals}.

(** On consistent tables [set_registration_status] returns. *)
Lemma set_registration_status_consistent (self : WorkerManager) (w : string)
    (b : bool) :
  tables_consistent self ->
  set_registration_status self w b
  = if is_worker_allowed self w
    then Ret (set_registered_workers self (<[w := b]> (registered_workers self)), w)
    else Ret (self, INVALID_WORKER).
Proof.
  intros Hc. unfold set_registration_status, is_worker_allowed.
  destruct (py_in w (allowed_workers self)) eqn:Hin; [|done].
  apply py_in_true in Hin.
  destruct (allowed_have_status self Hc w Hin) as [old ->]. done.
Qed.

(** The manager a handler leaves is the one it found after some registry
    calls. *)
Lemma serve_manager_calls (self : DCFServer) (ev : event) :
  exists calls,
    worker_manager (serve self ev) = wm_run (worker_manager self) calls.
Proof.
  destruct ev as [now k sp|now k st|w|w st|w v sp|g answer]; simpl.
  - unfold add_and_register_worker.
    destruct (authenticate_and_add_worker (worker_manager self) now k sp)
      as [[wm r]|e] eqn:Hadd; simpl; [|by exists []].
    assert (wm = wm_step (worker_manager self) (CallAuthenticateAndAdd now k sp))
      as Hwm by (simpl; by rewrite Hadd).
    destruct (String.eqb _ _); simpl.
    { exists [CallAuthenticateAndAdd now k sp]. done. }
    destruct (negb _); simpl.
    2:{ exists [CallAuthenticateAndAdd now k sp]. done. }
    destruct (set_registration_status wm (fst (py_tuple r)) true)
      as [[wm' ret]|e] eqn:Hset; simpl.
    + exists [CallAuthenticateAndAdd now k sp;
              CallSetRegistrationStatus (fst (py_tuple r)) true].
      simpl. rewrite Hadd. simpl. by rewrite Hset.
    + exists [CallAuthenticateAndAdd now k sp]. done.
  - unfold admin_add_worker.
    destruct (add_worker (worker_manager self) now k) as [wm r] eqn:Hadd.
    assert (wm = wm_step (worker_manager self) (CallAddWorker now k))
      as Hwm by (simpl; by rewrite Hadd).
    destruct (py_tuple r) as [w ok].
    destruct (String.eqb _ _); simpl; [by exists [CallAddWorker now k]|].
    destruct (negb ok); simpl; [by exists [CallAddWorker now k]|].
    destruct (set_registration_status wm w st) as [[wm' ret]|e] eqn:Hset; simpl.
    2:{ by exists [CallAddWorker now k]. }
    exists [CallAddWorker now k; CallSetRegistrationStatus w st].
    simpl. rewrite Hadd. simpl. rewrite Hset.
    destruct (String.eqb _ _); simpl; [done|]. by destruct st.
  - unfold admin_delete_worker.
    destruct (set_registration_status (worker_manager self) w false)
      as [[wm ret]|e] eqn:Hset; simpl; [|by exists []].
    destruct (remove_worker wm ret) as [wm' ret'] eqn:Hrem.
    exists [CallSetRegistrationStatus w false; CallRemoveWorker ret].
    simpl. rewrite Hset. simpl. rewrite Hrem.
    by destruct (String.eqb ret' _).
  - unfold admin_set_worker_status.
    destruct (set_registration_status (worker_manager self) w st)
      as [[wm ret]|e] eqn:Hset; simpl; [|by exists []].
    exists [CallSetRegistrationStatus w st]. simpl. rewrite Hset.
    destruct (String.eqb _ _); simpl; [done|].
    by destruct (negb _ && st), (_ && negb st).
  - exists []. unfold notify_me_if_gm_version_updated.
    destruct (negb _); [done|].
    destruct (verify_challenge _ _ _) as [[|]|e]; [|done|done].
    destruct (negb _); [done|].
    simpl. destruct (model_version_req_dict self !! w) as [l|]; [|done].
    by destruct (last l) as [[g0 b0]|].
  - exists []. unfold check_model_version_updated.
    destruct (greenlets self !! g) as [gr|]; [|done].
    destruct (negb _); [done|]. destruct answer; try done.
    simpl. destruct (model_version_req_dict self !! g_worker_id gr) as [l|]; [|done].
    simpl. by destruct (0 <? length l)%nat.
Qed.

Lemma serve_tables_consistent (self : DCFServer) (ev : event) :
  tables_consistent (worker_manager self) ->
  tables_consistent (worker_manager (serve self ev)).
Proof.
  intros Hc. destruct (serve_manager_calls self ev) as [calls ->].
  by apply wm_run_consistent.
Qed.

Lemma run_tables_consistent (evs : list event) (self : DCFServer) :
  tables_consistent (worker_manager self) ->
  tables_consistent (worker_manager (run self evs)).
Proof.
  revert self. induction evs as [|ev evs IH]; intros self Hc; [done|].
  simpl. apply IH. by apply serve_tables_consistent.
Qed.

Lemma set_worker_manager_same (self : DCFServer) :
  set_worker_manager self (worker_manager self) = self.
Proof. by destruct self. Qed.


(** The callbacks a change of status from [old] to [new] triggers. *)
Lemma admin_set_worker_status_allowed (self : DCFServer) (w : string) (st : bool) :
  tables_consistent (worker_manager self) ->
  is_worker_allowed (worker_manager self) w = true ->
  w <> INVALID_WORKER ->
  admin_set_worker_status self w st =
    (mkDCFServer
       (set_registered_workers (worker_manager self)
          (<[w := st]> (registered_workers (worker_manager self))))
       (model_version_req_dict self) (greenlets self) (queues self)
       (next_ref self)
       (callback_log self ++
          match is_worker_registered (worker_manager self) w, st with
          | false, true => [CallRegister w]
          | true, false => [CallUnregister w]
          | _, _ => []
          end)%list,
     Ret (RespSuccess w (Some st))).
Proof.
  intros Hc Ha Hne. unfold admin_set_worker_status.
  rewrite set_registration_status_consistent, Ha by done. simpl.
  apply String.eqb_neq in Hne. rewrite Hne.
  destruct (is_worker_registered (worker_manager self) w), st; simpl;
    unfold log_call, set_worker_manager; simpl; by rewrite ?app_nil_r.
Qed.


(** What [admin_delete_worker] does to an allowed worker. *)
Lemma admin_delete_worker_allowed (self : DCFServer) (w : string) :
  tables_consistent (worker_manager self) ->
  is_worker_allowed (worker_manager self) w = true ->
  w <> INVALID_WORKER ->
  let s' := fst (admin_delete_worker self w) in
  snd (admin_delete_worker self w) = Ret (RespSuccess w None) /\
  is_worker_allowed (worker_manager s') w = false /\
  is_worker_registered (worker_manager s') w = false /\
  registered_workers (worker_manager s') !! w = Some false /\
  callback_log s' =
    (callback_log self ++
       if is_worker_registered (worker_manager self) w
       then [CallUnregister w] else [])%list.
Proof.
  intros Hc Ha Hne. cbv zeta. unfold admin_delete_worker.
  rewrite set_registration_status_consistent, Ha by done. simpl.
  apply String.eqb_neq in Hne. rewrite Hne. simpl.
  set (wm := set_registered_workers (worker_manager self)
               (<[w:=false]> (registered_workers (worker_manager self)))).
  assert (w ∈ allowed_workers wm) as Hin by (by apply py_in_true in Ha).
  destruct (remove_worker_allowed wm w Hin) as (Hret & Hal & Hr & _).
  destruct (remove_worker wm w) as [wm' ret]. simpl in *. subst ret.
  rewrite Hne. simpl.
  assert (is_worker_allowed wm' w = false) as Hgone.
  { apply py_in_false. rewrite Hal. apply py_list_remove_gone.
    apply (allowed_nodup _ Hc). }
  assert (registered_workers wm' !! w = Some false) as Hst.
  { rewrite Hr. unfold wm. simpl. by rewrite lookup_insert_eq. }
  destruct (is_worker_registered (worker_manager self) w); simpl;
    repeat split; auto; unfold is_worker_registered; by rewrite ?Hst, ?app_nil_r.
Qed.


(** X12.  When [add_and_register_worker] answers with an id other than
    [INVALID_WORKER], that worker is allowed and registered afterwards,
    and the register callback was called unless the worker was already
    allowed and registered before the request. *)
Theorem add_and_register_worker_registers (safe : bool)
    (db : option (list string)) (evs : list event)
    (now k sp worker_id : string) :
  let s := run (new_server (new_manager safe db)) evs in
  let s' := fst (add_and_register_worker s now k sp) in
  snd (add_and_register_worker s now k sp) = Ret (RespText worker_id) ->
  worker_id <> INVALID_WORKER ->
  worker_id = generate_id_for_worker (worker_manager s) now k /\
  is_worker_allowed (worker_manager s') worker_id = true /\
  is_worker_registered (worker_manager s') worker_id = true /\
  callback_log s' =
    (callback_log s ++
       if is_worker_allowed (worker_manager s) worker_id
          && is_worker_registered (worker_manager s) worker_id
       then [] else [CallRegister worker_id])%list.
Proof.
  intros s s'.
  assert (tables_consistent (worker_manager s)) as Hc
    by apply run_tables_consistent, new_manager_consistent.
  unfold s', add_and_register_worker, authenticate_and_add_worker.
  destruct (authenticate_worker (worker_manager s) k sp) as [[|]|e] eqn:Hv; simpl;
    [| |done].
  2:{ rewrite String.eqb_refl. simpl. by intros [= <-]. }
  assert (do_public_key_auth (worker_manager s) = false \/
          is_Some (public_keys (worker_manager s) !! k)) as Hkey.
  { unfold authenticate_worker in Hv.
    destruct (do_public_key_auth (worker_manager s)); [right|by left].
    simpl in Hv. destruct (public_keys (worker_manager s) !! k); [eauto|done]. }
  pose proof (_add_worker_consistent (worker_manager s) now k Hc) as Hc'.
  set (w := generate_id_for_worker (worker_manager s) now k).
  destruct (decide (w ∈ allowed_workers (worker_manager s))) as [Hin|Hnin].
  - rewrite (_add_worker_previously (worker_manager s) now k Hkey Hin). simpl.
    fold w.
    destruct (String.eqb w INVALID_WORKER) eqn:Heq; simpl.
    { intros [= <-] Hne. by apply String.eqb_eq in Heq. }
    assert (is_worker_allowed (worker_manager s) w = true) as Hal
      by (by apply py_in_true).
    destruct (is_worker_registered (worker_manager s) w) eqn:Hreg; simpl.
    + intros [= <-] Hne. rewrite Hal, Hreg. simpl. by rewrite app_nil_r.
    + rewrite set_registration_status_consistent by done.
      rewrite Hal. simpl.
      intros [= <-] Hne. rewrite Hal, Hreg. simpl. repeat split; auto.
      unfold is_worker_registered. simpl. by rewrite lookup_insert_eq.
  - destruct (_add_worker_added (worker_manager s) now k Hkey Hnin)
      as (Hr & Ha & Hrw & _). fold w in Hr, Ha, Hrw.
    destruct (_add_worker (worker_manager s) now k) as [wm r]. simpl in *.
    subst r. simpl.
    destruct (String.eqb w INVALID_WORKER) eqn:Heq; simpl.
    { intros [= <-] Hne. by apply String.eqb_eq in Heq. }
    assert (is_worker_registered wm w = false) as Hreg'.
    { unfold is_worker_registered. by rewrite Hrw, lookup_insert_eq. }
    rewrite Hreg'. simpl.
    rewrite set_registration_status_consistent by done.
    assert (is_worker_allowed wm w = true) as Hal.
    { apply py_in_true. rewrite Ha. apply elem_of_app. right.
      by apply list_elem_of_singleton. }
    rewrite Hal. simpl. intros [= <-] Hne.
    assert (is_worker_allowed (worker_manager s) w = false) as Hnal
      by (by apply py_in_false).
    rewrite Hnal. simpl. repeat split; auto.
    unfold is_worker_registered. simpl. by rewrite lookup_insert_eq.
Qed.

Lemma run_manager_calls (evs : list event) (self : DCFServer) :
  exists calls,
    worker_manager (run self evs) = wm_run (worker_manager self) calls.
Proof.
  revert self. induction evs as [|ev evs IH]; intros self; [by exists []|].
  simpl. destruct (IH (serve self ev)) as [calls' ->].
  destruct (serve_manager_calls self ev) as [calls ->].
  exists (calls ++ calls')%list. by rewrite wm_run_app.
Qed.


End HandlerFacts.

(* ===================================================================== *)
(** * Further properties of the long-poll notifications *)
(* ===================================================================== *)

Section QueueFacts.
Context `{ServerExternals}.

(** A superseded request is over. *)
Lemma notify_supersedes_over (self : DCFServer) (w v sp : string) (g : nat) :
  server_consistent self -> wait_accepted self w sp ->
  model_version_req_dict self !! w = Some [(g, g)] ->
  wait_over g (fst (notify_me_if_gm_version_updated self w v sp)).
Proof.
  intros Hc Hacc Hd.
  destruct (entries_ok self Hc w _ Hd) as [_ Hent].
  destruct (Hent g g) as (_ & gr & Hgr & Hw); [by left|].
  destruct (greenlets_ok self Hc g gr Hgr) as (Hlt & _ & _).
  rewrite (notify_supersedes self w v sp g g Hacc Hd). simpl.
  split; simpl.
  - lia.
  - intros gr'. rewrite lookup_insert_ne by lia. rewrite lookup_alter_eq, Hgr.
    by intros [= <-].
  - intros w' l' g' b'. destruct (decide (w = w')) as [<-|Hne].
    + rewrite lookup_insert_eq. intros [= <-] Hin.
      apply list_elem_of_singleton in Hin as [= -> ->]. lia.
    + rewrite lookup_insert_ne by done. intros Hl' Hin.
      destruct (entries_ok self Hc w' l' Hl') as [_ Hent'].
      destruct (Hent' g' b' Hin) as (-> & gr' & Hgr' & Hw').
      intros ->. congruence.
Qed.

(** A request that has been delivered is over. *)
Lemma poll_delivers_over (self : DCFServer) (g : nat) (gr : greenlet) :
  server_consistent self ->
  greenlets self !! g = Some gr -> g_alive gr = true ->
  wait_over g (check_model_version_updated self g VersionChanged).
Proof.
  intros Hc Hgr Halive.
  destruct (greenlets_ok self Hc g gr Hgr) as (Hlt & Hb & Hal).
  specialize (Hal Halive).
  rewrite (poll_delivers self g gr _ Hgr Halive Hal). split; simpl.
  - done.
  - intros gr'. rewrite lookup_alter_eq, Hgr. by intros [= <-].
  - intros w' l' g' b'. destruct (decide (g_worker_id gr = w')) as [<-|Hne].
    + rewrite lookup_insert_eq. intros [= <-] Hin. by apply elem_of_nil in Hin.
    + rewrite lookup_insert_ne by done. intros Hl' Hin.
      destruct (entries_ok self Hc w' l' Hl') as [_ Hent'].
      destruct (Hent' g' b' Hin) as (-> & gr' & Hgr' & Hw').
      intros ->. congruence.
Qed.

(** What one event does to one queue: nothing, or it creates the queue
    empty, or it puts one answer on it and the request is over. *)
Lemma serve_queue_step (self : DCFServer) (ev : event) (b : nat) :
  server_consistent self ->
  queues (serve self ev) !! b = queues self !! b \/
  queues (serve self ev) !! b = Some [] \/
  exists msg, answer_text msg /\
    queues (serve self ev) !! b
    = Some (default [] (queues self !! b) ++ [QStr msg; QStopIteration])%list /\
    wait_over b (serve self ev).
Proof.
  intros Hc. pose proof (serve_same_waits self ev) as Hsame.
  destruct ev as [now k sp|now k st|w|w st|w v sp|g answer];
    try (left; by destruct Hsame as (_ & _ & -> & _)).
  - simpl. destruct (wait_accepted_dec self w sp) as [Hacc|Hrej].
    2:{ left. by rewrite notify_rejected. }
    assert (forall l, model_version_req_dict self !! w = Some l ->
                      l = [] \/ exists g0, l = [(g0, g0)]) as Hshape.
    { intros l Hl. destruct (entries_ok self Hc w l Hl) as [Hlen Hent].
      destruct l as [|[g0 b0] [|e2 l]]; [by left| |simpl in Hlen; lia].
      right. destruct (Hent g0 b0) as (-> & _); [by left|]. by exists g0. }
    assert (model_version_req_dict self !! w = None \/
            model_version_req_dict self !! w = Some [] \/
            exists g0, model_version_req_dict self !! w = Some [(g0, g0)])
      as [Hd|[Hd|[g0 Hd]]].
    { destruct (model_version_req_dict self !! w) as [l|] eqn:Hd; [|by left].
      destruct (Hshape l eq_refl) as [->|[g0 ->]]; eauto. }
    + rewrite notify_fresh by auto. simpl.
      destruct (decide (next_ref self = b)) as [<-|Hne].
      * right. left. by rewrite lookup_insert_eq.
      * left. by rewrite lookup_insert_ne.
    + rewrite notify_fresh by auto. simpl.
      destruct (decide (next_ref self = b)) as [<-|Hne].
      * right. left. by rewrite lookup_insert_eq.
      * left. by rewrite lookup_insert_ne.
    + pose proof (notify_supersedes_over self w v sp g0 Hc Hacc Hd) as Hover.
      rewrite (notify_supersedes self w v sp g0 g0 Hacc Hd) in *. simpl in *.
      destruct (decide (next_ref self = b)) as [<-|Hne].
      * right. left. by rewrite lookup_insert_eq.
      * rewrite lookup_insert_ne by done.
        destruct (decide (g0 = b)) as [<-|Hne0].
        -- right. right. exists (superseded_msg w). split; [right; eauto|].
           rewrite lookup_insert_eq. done.
        -- left. by rewrite lookup_insert_ne.
  - simpl.
    destruct (greenlets self !! g) as [gr|] eqn:Hgr.
    2:{ left. unfold check_model_version_updated. by rewrite Hgr. }
    destruct (g_alive gr) eqn:Halive.
    2:{ left. unfold check_model_version_updated. by rewrite Hgr, Halive. }
    destruct answer as [| |e].
    + left. unfold check_model_version_updated. by rewrite Hgr, Halive.
    + pose proof (poll_delivers_over self g gr Hc Hgr Halive) as Hover.
      destruct (greenlets_ok self Hc g gr Hgr) as (Hlt & Hb & Hal).
      specialize (Hal Halive).
      rewrite (poll_delivers self g gr _ Hgr Halive Hal) in *. simpl in *.
      rewrite Hb in *. destruct (decide (g = b)) as [<-|Hne].
      * right. right. exists GLOBAL_MODEL_UPDATED_STRING. split; [by left|].
        rewrite lookup_insert_eq. done.
      * left. by rewrite lookup_insert_ne.
    + left. unfold check_model_version_updated. by rewrite Hgr, Halive.
Qed.

Lemma serve_queues_ok (self : DCFServer) (ev : event) :
  server_consistent self -> queues_ok self -> queues_ok (serve self ev).
Proof.
  intros Hc Hq b q' Hq'.
  destruct (serve_queue_step self ev b Hc) as [Hsame|[Hnew|(msg & Hmsg & Hput & Hover)]].
  - rewrite Hsame in Hq'. destruct (Hq b q' Hq') as [->|[Hans Hover]]; [by left|].
    right. split; [done|]. by apply serve_wait_over.
  - rewrite Hnew in Hq'. left. congruence.
  - rewrite Hput in Hq'. injection Hq' as <-.
    destruct (queues self !! b) as [q|] eqn:Hold; simpl.
    + destruct (Hq b q Hold) as [->|[(m0 & -> & _) Hover0]].
      * right. split; [|done]. by exists msg.
      * destruct (serve_wait_over b self ev Hc Hover0) as [_ Heq].
        rewrite Hput, Hold in Heq. simpl in Heq. by injection Heq.
    + right. split; [|done]. by exists msg.
Qed.

Lemma run_queues_ok (evs : list event) (self : DCFServer) :
  server_consistent self -> queues_ok self -> queues_ok (run self evs).
Proof.
  revert self. induction evs as [|ev evs IH]; intros self Hc Hq; [done|].
  simpl. apply IH; [by apply serve_consistent|by apply serve_queues_ok].
Qed.


Lemma notify_accepted_next_ref (self : DCFServer) (w v sp : string) :
  wait_accepted self w sp ->
  next_ref (fst (notify_me_if_gm_version_updated self w v sp))
  = S (next_ref self) /\
  snd (notify_me_if_gm_version_updated self w v sp) = RespBody (next_ref self).
Proof.
  intros (Ha & Hv & Hr). unfold notify_me_if_gm_version_updated.
  rewrite Ha, Hv, Hr. simpl.
  destruct (model_version_req_dict self !! w) as [l|]; [|done].
  by destruct (last l) as [[g0 b0]|].
Qed.


Local Ltac stuck_tac :=
  unfold wait_stuck; simpl;
  rewrite ?lookup_insert_ne by (done || lia);
  rewrite ?lookup_alter_ne by done;
  eauto 10.

Lemma wait_stuck_serve (g : nat) (w : string) (self : DCFServer) (ev : event) :
  server_consistent self -> wait_stuck g w self ->
  is_notify_of w ev = false ->
  wait_stuck g w (serve self ev) /\
  queues (serve self ev) !! g = queues self !! g.
Proof.
  intros Hc [(gr & Hgr & Hdead) Hd] Hev.
  pose proof (serve_same_waits self ev) as Hsame.
  destruct ev as [now k sp|now k st|w0|w0 st|w0 v sp|g0 answer];
    try (destruct Hsame as (Hd' & Hg' & Hq' & _);
         split; [split; [exists gr|]|]; by rewrite ?Hd', ?Hg', ?Hq').
  - (* a wait request of another worker *)
    simpl in Hev. apply String.eqb_neq in Hev. simpl.
    destruct (wait_accepted_dec self w0 sp) as [Hacc|Hrej].
    2:{ rewrite notify_rejected by done. split; [split; eauto|done]. }
    destruct (greenlets_ok self Hc g gr Hgr) as (Hlt & _ & _).
    assert (model_version_req_dict self !! w0 = None \/
            model_version_req_dict self !! w0 = Some [] \/
            exists g1, model_version_req_dict self !! w0 = Some [(g1, g1)])
      as [Hd0|[Hd0|[g1 Hd0]]].
    { destruct (model_version_req_dict self !! w0) as [l|] eqn:Hd0; [|by left].
      destruct (entries_ok self Hc w0 l Hd0) as [Hlen Hent].
      destruct l as [|[g1 b1] [|e2 l]]; [eauto| |simpl in Hlen; lia].
      right. right. destruct (Hent g1 b1) as (-> & _); [by left|]. by exists g1. }
    + rewrite notify_fresh by auto. stuck_tac.
    + rewrite notify_fresh by auto. stuck_tac.
    + assert (g1 <> g) as Hne.
      { intros ->. destruct (entries_ok self Hc w0 _ Hd0) as [_ Hent0].
        destruct (Hent0 g g) as (_ & gr0 & Hgr0 & Hw0); [by left|].
        destruct (entries_ok self Hc w _ Hd) as [_ Hent].
        destruct (Hent g g) as (_ & gr1 & Hgr1 & Hw1); [by left|].
        congruence. }
      rewrite (notify_supersedes self w0 v sp g1 g1 Hacc Hd0). stuck_tac.
  - (* a turn of a greenlet *)
    simpl.
    destruct (greenlets self !! g0) as [gr0|] eqn:Hgr0.
    2:{ unfold check_model_version_updated. rewrite Hgr0.
        split; [split; eauto|done]. }
    destruct (g_alive gr0) eqn:Halive.
    2:{ unfold check_model_version_updated. rewrite Hgr0, Halive.
        split; [split; eauto|done]. }
    assert (g0 <> g) as Hne by (intros ->; congruence).
    destruct (greenlets_ok self Hc g0 gr0 Hgr0) as (_ & Hb0 & Hal0).
    specialize (Hal0 Halive).
    assert (g_worker_id gr0 <> w) as Hnw.
    { intros Heq. rewrite Heq, Hd in Hal0. congruence. }
    destruct answer as [| |e].
    + unfold check_model_version_updated. rewrite Hgr0, Halive.
      split; [split; eauto|done].
    + rewrite (poll_delivers self g0 gr0 _ Hgr0 Halive Hal0), Hb0. stuck_tac.
    + unfold check_model_version_updated. rewrite Hgr0, Halive. stuck_tac.
Qed.

Lemma wait_stuck_run (g : nat) (w : string) (evs : list event) (self : DCFServer) :
  server_consistent self -> wait_stuck g w self ->
  forallb (fun ev => negb (is_notify_of w ev)) evs = true ->
  wait_stuck g w (run self evs) /\
  queues (run self evs) !! g = queues self !! g.
Proof.
  revert self. induction evs as [|ev evs IH]; intros self Hc Hst Hevs; [done|].
  simpl in Hevs. apply andb_true_iff in Hevs as [Hev Hevs].
  apply negb_true_iff in Hev.
  destruct (wait_stuck_serve g w self ev Hc Hst Hev) as [Hst' Hq'].
  simpl. rewrite <- Hq'. apply IH; [by apply serve_consistent|done|done].
Qed.

Lemma serve_greenlets_have_queues (self : DCFServer) (ev : event) :
  server_consistent self -> greenlets_have_queues self ->
  greenlets_have_queues (serve self ev).
Proof.
  intros Hc Hq g gr' Hgr'.
  assert ((exists gr, greenlets self !! g = Some gr) \/
          queues (serve self ev) !! g = Some []) as [[gr Hgr]|Hnew].
  { pose proof (serve_same_waits self ev) as Hsame.
    destruct ev as [now k sp|now k st|w|w st|w v sp|g0 answer];
      try (left; destruct Hsame as (_ & Hg & _); rewrite Hg in Hgr'; by eauto).
    - simpl in *. destruct (wait_accepted_dec self w sp) as [Hacc|Hrej].
      2:{ rewrite notify_rejected in Hgr' by done. eauto. }
      assert (model_version_req_dict self !! w = None \/
              model_version_req_dict self !! w = Some [] \/
              exists g1, model_version_req_dict self !! w = Some [(g1, g1)])
        as [Hd|[Hd|[g1 Hd]]].
      { destruct (model_version_req_dict self !! w) as [l|] eqn:Hd; [|by left].
        destruct (entries_ok self Hc w l Hd) as [Hlen Hent].
        destruct l as [|[g1 b1] [|e2 l]]; [eauto| |simpl in Hlen; lia].
        right. right. destruct (Hent g1 b1) as (-> & _); [by left|]. by exists g1. }
      + rewrite notify_fresh in * by auto. simpl in *.
        destruct (decide (next_ref self = g)) as [<-|Hne].
        * right. by rewrite lookup_insert_eq.
        * left. rewrite lookup_insert_ne in Hgr' by done. eauto.
      + rewrite notify_fresh in * by auto. simpl in *.
        destruct (decide (next_ref self = g)) as [<-|Hne].
        * right. by rewrite lookup_insert_eq.
        * left. rewrite lookup_insert_ne in Hgr' by done. eauto.
      + rewrite (notify_supersedes self w v sp g1 g1 Hacc Hd) in *. simpl in *.
        destruct (decide (next_ref self = g)) as [<-|Hne].
        * right. by rewrite lookup_insert_eq.
        * left. rewrite lookup_insert_ne in Hgr' by done.
          apply lookup_alter_killed in Hgr' as (gr1 & Hgr1 & _). eauto.
    - left. simpl in Hgr'. unfold check_model_version_updated in Hgr'.
      destruct (greenlets self !! g0) as [gr0|] eqn:Hgr0; [|eauto].
      destruct (negb (g_alive gr0)); [eauto|].
      destruct answer as [| |e]; [eauto| |].
      + simpl in Hgr'.
        destruct (model_version_req_dict _ !! _) as [l|]; simpl in Hgr';
          [destruct (0 <? length l)%nat; simpl in Hgr'|];
          apply lookup_alter_killed in Hgr' as (gr1 & Hgr1 & _); eauto.
      + simpl in Hgr'. apply lookup_alter_killed in Hgr' as (gr1 & Hgr1 & _).
        eauto. }
  - destruct (Hq g gr Hgr) as [q Hold].
    destruct (serve_queue_step self ev g Hc) as [->|[->|(msg & _ & -> & _)]]; eauto.
  - rewrite Hnew. eauto.
Qed.

Lemma run_greenlets_have_queues (evs : list event) (self : DCFServer) :
  server_consistent self -> greenlets_have_queues self ->
  greenlets_have_queues (run self evs).
Proof.
  revert self. induction evs as [|ev evs IH]; intros self Hc Hq; [done|].
  simpl. apply IH; [by apply serve_consistent|by apply serve_greenlets_have_queues].
Qed.

(** The queue of a live greenlet is there and empty. *)
Lemma live_greenlet_queue_empty (wm : WorkerManager) (evs : list event)
    (g : nat) (gr : greenlet) :
  greenlets (run (new_server wm) evs) !! g = Some gr -> g_alive gr = true ->
  queues (run (new_server wm) evs) !! g = Some [].
Proof.
  intros Hgr Halive. set (s := run (new_server wm) evs) in *.
  assert (queues_ok s) as Hq.
  { apply run_queues_ok; [apply new_server_consistent|].
    intros b' q. simpl. by rewrite lookup_empty. }
  assert (greenlets_have_queues s) as Hh.
  { apply run_greenlets_have_queues; [apply new_server_consistent|].
    intros g' gr'. simpl. by rewrite lookup_empty. }
  destruct (Hh g gr Hgr) as [q Hqg]. rewrite Hqg.
  destruct (Hq g q Hqg) as [->|[_ Hover]]; [done|].
  by rewrite (over_dead g s Hover gr Hgr) in Halive.
Qed.


End QueueFacts.

(* ===================================================================== *)
(** * Further properties of the process bridges *)
(* ===================================================================== *)

Module BridgeSendFacts.
Import Bridge BridgeSends.

(** Evaluates the comparisons of a known tag with the tags of [receive]. *)
Ltac eval_tags :=
  repeat match goal with
  | |- context [tag_is (encode ?a) ?b] =>
      let v := eval vm_compute in (tag_is (encode a) b) in
      change (tag_is (encode a) b) with v
  end; cbn iota.

Lemma receive_agree (cb : callbacks) (message : list bytes) :
  match message with
  | m0 :: _ => tag_is m0 "is_global_model_most_recent"
  | [] => false
  end = false ->
  Bridge.ZMQ.receive cb message = Bridge.ZQM.receive cb message.
Proof.
  intros Htag. unfold Bridge.ZMQ.receive, Bridge.ZQM.receive.
  destruct message as [|m0 rest]; [done|]. cbn [item lookup list_lookup bind].
  rewrite Htag. done.
Qed.

(** X17.  The two bridges differ in nothing but the version check: their
    [receive] methods treat every message alike whose first frame is not
    [is_global_model_most_recent], and the five other front-end calls have
    the same outcome through either file. *)
Theorem bridges_agree_off_version_check (cb : callbacks) :
  (forall message,
     match message with
     | m0 :: _ => tag_is m0 "is_global_model_most_recent"
     | [] => false
     end = false ->
     Bridge.ZMQ.receive cb message = Bridge.ZQM.receive cb message) /\
  ZMQ.server_args_request_send cb = ZQM.server_args_request_send cb /\
  (forall w, ZMQ.register_worker_send cb w = ZQM.register_worker_send cb w) /\
  (forall w, ZMQ.unregister_worker_send cb w = ZQM.unregister_worker_send cb w) /\
  ZMQ.return_global_model_send cb = ZQM.return_global_model_send cb /\
  (forall w u, ZMQ.receive_worker_update_send cb w u
               = ZQM.receive_worker_update_send cb w u).
Proof.
  split; [apply receive_agree|].
  repeat split; intros;
    unfold ZMQ.server_args_request_send, ZQM.server_args_request_send,
      ZMQ.register_worker_send, ZQM.register_worker_send,
      ZMQ.unregister_worker_send, ZQM.unregister_worker_send,
      ZMQ.return_global_model_send, ZQM.return_global_model_send,
      ZMQ.receive_worker_update_send, ZQM.receive_worker_update_send,
      Bridge.ZMQ._send, Bridge.ZQM._send, exchange;
    cbn [socket_send_multipart bind];
    try (destruct u; cbn [socket_send_multipart bind]; try done);
    by rewrite receive_agree.
Qed.

(** X18.  Registering and unregistering through either bridge: the back
    end's callback is called with the UTF-8 bytes of the worker id; when
    it returns, whatever it returns, the caller gets [b'1']; when it
    raises, no reply is sent. *)
Theorem register_worker_send_outcome (cb : callbacks) (worker_id : string) :
  ZMQ.register_worker_send cb worker_id
  = match register_worker_callback cb (PyBytes (encode worker_id)) with
    | Ret _ => Returned [encode "register_worker"; encode worker_id]
                 (PyBytes (encode "1"))
    | Raise e => NoReply [encode "register_worker"; encode worker_id] (Some e)
    end /\
  ZQM.register_worker_send cb worker_id = ZMQ.register_worker_send cb worker_id /\
  ZMQ.unregister_worker_send cb worker_id
  = match unregister_worker_callback cb (PyBytes (encode worker_id)) with
    | Ret _ => Returned [encode "unregister_worker"; encode worker_id]
                 (PyBytes (encode "1"))
    | Raise e => NoReply [encode "unregister_worker"; encode worker_id] (Some e)
    end /\
  ZQM.unregister_worker_send cb worker_id
  = ZMQ.unregister_worker_send cb worker_id.
Proof.
  assert (forall m, Bridge.ZQM.receive cb (encode "register_worker" :: m)
                    = Bridge.ZMQ.receive cb (encode "register_worker" :: m)) as Hr
    by (intros m; symmetry; by apply receive_agree).
  assert (forall m, Bridge.ZQM.receive cb (encode "unregister_worker" :: m)
                    = Bridge.ZMQ.receive cb (encode "unregister_worker" :: m)) as Hu
    by (intros m; symmetry; by apply receive_agree).
  unfold ZMQ.register_worker_send, ZQM.register_worker_send,
    ZMQ.unregister_worker_send, ZQM.unregister_worker_send,
    Bridge.ZMQ._send, Bridge.ZQM._send, exchange.
  cbn [socket_send_multipart bind]. rewrite Hr, Hu.
  unfold Bridge.ZMQ.receive. cbn [item lookup list_lookup bind]. eval_tags.
  split; [|split; [done|split; [|done]]].
  - by destruct (register_worker_callback cb (PyBytes (encode worker_id))).
  - by destruct (unregister_worker_callback cb (PyBytes (encode worker_id))).
Qed.

(** X19.  Fetching the global model and the server arguments through
    either bridge returns the very object the back end holds: what
    [return_global_model_callback] returned, and [server_subprocess_args].
    When the callback raises, no reply is sent. *)
Theorem return_global_model_send_outcome (cb : callbacks) :
  ZMQ.return_global_model_send cb
  = match return_global_model_callback cb with
    | Ret model => Returned [encode "return_global_model"] model
    | Raise e => NoReply [encode "return_global_model"] (Some e)
    end /\
  ZQM.return_global_model_send cb = ZMQ.return_global_model_send cb /\
  ZMQ.server_args_request_send cb
  = Returned [encode "server_args_request"] (server_subprocess_args cb) /\
  ZQM.server_args_request_send cb
  = Returned [encode "server_args_request"] (server_subprocess_args cb).
Proof.
  unfold ZMQ.return_global_model_send, ZQM.return_global_model_send,
    ZMQ.server_args_request_send, ZQM.server_args_request_send,
    Bridge.ZMQ._send, Bridge.ZQM._send, exchange.
  cbn [socket_send_multipart bind].
  unfold Bridge.ZMQ.receive, Bridge.ZQM.receive.
  cbn [item lookup list_lookup bind]. eval_tags.
  repeat split; by destruct (return_global_model_callback cb).
Qed.

(** X20.  Passing a worker update through either bridge: an update that
    is not [bytes] makes the call raise [TypeError] before anything is
    sent; otherwise the callback gets the bytes of the worker id and the
    update, and the caller gets the callback's status when that is a
    [str]; a status of another type makes [send_string] raise, so no reply
    is sent. *)
Theorem receive_worker_update_send_outcome (cb : callbacks) (worker_id : string)
    (model_update : pyval) :
  ZMQ.receive_worker_update_send cb worker_id model_update
  = match model_update with
    | PyBytes u =>
        let request :=
          [encode "receive_worker_update"; encode worker_id; u] in
        match receive_worker_update_callback cb
                (PyBytes (encode worker_id)) (PyBytes u) with
        | Ret (PyStr status) => Returned request (PyStr status)
        | Ret _ => NoReply request (Some TypeError)
        | Raise e => NoReply request (Some e)
        end
    | _ => FrontRaised TypeError
    end /\
  ZQM.receive_worker_update_send cb worker_id model_update
  = ZMQ.receive_worker_update_send cb worker_id model_update.
Proof.
  assert (forall m, Bridge.ZQM.receive cb (encode "receive_worker_update" :: m)
                    = Bridge.ZMQ.receive cb (encode "receive_worker_update" :: m))
    as Hr by (intros m; symmetry; by apply receive_agree).
  unfold ZMQ.receive_worker_update_send, ZQM.receive_worker_update_send,
    Bridge.ZMQ._send, Bridge.ZQM._send, exchange.
  destruct model_update as [|x|z|s|u]; cbn [socket_send_multipart bind];
    try done.
  rewrite Hr. split; [|done].
  unfold Bridge.ZMQ.receive. cbn [item lookup list_lookup bind]. eval_tags.
  destruct (receive_worker_update_callback cb (PyBytes (encode worker_id))
              (PyBytes u)) as [[|x|z|s|b]|e]; cbn; try done.
  by rewrite decode_encode.
Qed.

Lemma lstrip_head (c : byte) (s : bytes) :
  is_space c = false -> lstrip (c :: s) = c :: s.
Proof. intros Hc. simpl. by rewrite Hc. Qed.

(** [int()] refuses the [repr] of a [bytes] object. *)
Lemma py_int_repr_bytes (b : bytes) : py_int (repr_bytes b) = Raise ValueError.
Proof.
  unfold py_int, repr_bytes. cbv zeta.
  set (q := if (_ && _) then quote2 else quote1).
  rewrite encode_decode.
  assert (is_space q = false) as Hq by (unfold q; by destruct (andb _ _)).
  set (mid := List.flat_map (repr_byte q) b).
  unfold strip. rewrite lstrip_head by done.
  assert (List.rev ("b"%byte :: q :: mid ++ [q])
          = q :: List.rev ("b"%byte :: q :: mid)) as ->.
  { change ("b"%byte :: q :: mid ++ [q])%list
      with (("b"%byte :: q :: mid) ++ [q])%list.
    by rewrite rev_app_distr. }
  rewrite lstrip_head by done.
  change (q :: List.rev ("b"%byte :: q :: mid))
    with (List.rev [q] ++ List.rev ("b"%byte :: q :: mid))%list.
  rewrite <- rev_app_distr, rev_involutive. done.
Qed.


(** X22.  A message with a tag the model does not know gets no reply
    from either bridge, and neither does one that lacks the frames its
    tag needs: reading the missing frame raises [IndexError]. *)
Theorem unanswered_messages (cb : callbacks) :
  (forall m0 rest,
     (forall t, t ∈ known_tags -> tag_is m0 t = false) ->
     Bridge.ZMQ.receive cb (m0 :: rest) = Ret None /\
     Bridge.ZQM.receive cb (m0 :: rest) = Ret None) /\
  (forall t,
     t ∈ ["register_worker"; "unregister_worker"; "is_global_model_most_recent";
          "receive_worker_update"] ->
     Bridge.ZMQ.receive cb [encode t] = Raise IndexError /\
     Bridge.ZQM.receive cb [encode t] = Raise IndexError).
Proof.
  split.
  - intros m0 rest Hno.
    unfold Bridge.ZMQ.receive, Bridge.ZQM.receive.
    cbn [item lookup list_lookup bind].
    rewrite !Hno; [done|..]; unfold known_tags; set_solver.
  - intros t Ht.
    unfold Bridge.ZMQ.receive, Bridge.ZQM.receive.
    cbn [item lookup list_lookup bind].
    repeat (apply elem_of_cons in Ht as [->|Ht]); [..|by apply elem_of_nil in Ht];
      eval_tags; done.
Qed.

End BridgeSendFacts.

(* ===================================================================== *)
(** * Keys and identities *)
(* ===================================================================== *)

Section KeyFacts.
Context `{Externals}.

(** X23.  Deleting a key right after adding it: [delete_public_key]
    always answers true; in safe mode, when the key was not stored before,
    [add_public_key] followed by [delete_public_key] leaves the manager
    exactly as it was, and in any case the key is not stored afterwards
    and no other key is touched. *)
Theorem add_then_delete_public_key (self : WorkerManager) (k : string) :
  let self1 := fst (add_public_key self k) in
  let self2 := fst (delete_public_key self1 k) in
  snd (delete_public_key self1 k) = true /\
  (public_keys self !! k = None -> self2 = self) /\
  (if do_public_key_auth self
   then public_keys self2 = delete k (public_keys self)
   else self2 = self) /\
  allowed_workers self2 = allowed_workers self /\
  registered_workers self2 = registered_workers self.
Proof.
  cbv zeta. unfold add_public_key, delete_public_key.
  destruct (do_public_key_auth self) eqn:Hauth; simpl;
    [|by rewrite Hauth].
  destruct (public_keys self !! k) as [vk|] eqn:Hk; simpl.
  - rewrite Hauth, Hk. simpl. done.
  - destruct (VerifyKey (encode k)) as [vk|e]; simpl.
    + rewrite Hauth. simpl. rewrite lookup_insert_eq. simpl.
      unfold set_public_keys. simpl.
      rewrite delete_insert_eq, (delete_id _ _ Hk).
      split; [done|]. split; [|done]. intros _. by destruct self.
    + rewrite Hauth, Hk. simpl. rewrite (delete_id _ _ Hk). done.
Qed.

(** X24.  [get_keys], after any sequence of registry calls: in safe mode
    it lists exactly the allowed workers, each once; in unsafe mode it is
    empty. *)
Theorem get_keys_lists_allowed_workers (safe : bool) (db : option (list string))
    (calls : list wm_call) :
  let self := wm_run (new_manager safe db) calls in
  NoDup (get_keys self) /\
  (if safe
   then forall k, k ∈ get_keys self <-> is_worker_allowed self k = true
   else get_keys self = []).
Proof.
  intros self.
  assert (tables_consistent self) as Hc
    by apply wm_run_consistent, new_manager_consistent.
  assert (keys_of_allowed self) as Hk
    by (apply wm_run_keys_of_allowed;
        [apply new_manager_consistent|apply new_manager_keys_of_allowed]).
  assert (do_public_key_auth self = safe) as Hauth by apply wm_run_auth.
  unfold get_keys. split; [apply NoDup_fst_map_to_list|].
  destruct safe.
  - intros k. unfold is_worker_allowed. rewrite py_in_true.
    rewrite list_elem_of_fmap. split.
    + intros ([k' vk] & -> & Hin). apply elem_of_map_to_list in Hin.
      by destruct (Hk k' vk Hin).
    + intros Hin. destruct (allowed_have_key self Hc Hauth k Hin) as [vk Hvk].
      exists (k, vk). split; [done|]. by apply elem_of_map_to_list.
  - rewrite (no_keys_when_unsafe self Hc Hauth). by rewrite map_to_list_empty.
Qed.

End KeyFacts.

Module SHA224Facts.
Import SHA224.

Lemma round_length (s : list Z) (kw : Z * Z) :
  List.length s = 8%nat -> List.length (round s kw) = 8%nat.
Proof.
  intros Hs. do 9 (destruct s as [|? s]; try discriminate Hs). reflexivity.
Qed.

Lemma fold_round_length (l : list (Z * Z)) (s : list Z) :
  List.length s = 8%nat -> List.length (List.fold_left round l s) = 8%nat.
Proof.
  revert s. induction l as [|kw l IH]; intros s Hs; [done|].
  simpl. apply IH. by apply round_length.
Qed.

Lemma zip_add_length (x y : list Z) :
  List.length x = List.length y -> List.length (zip_add x y) = List.length x.
Proof.
  revert y. induction x as [|a x IH]; intros [|b y] Hxy; simpl in *; try done.
  f_equal. apply IH. lia.
Qed.

Lemma compress_length (h block : list Z) :
  List.length h = 8%nat -> List.length (compress h block) = 8%nat.
Proof.
  intros Hh. unfold compress. rewrite zip_add_length; [done|].
  by rewrite fold_round_length.
Qed.

Lemma blocks_length (fuel : nat) (ws h : list Z) :
  List.length h = 8%nat -> List.length (blocks fuel ws h) = 8%nat.
Proof.
  revert ws h. induction fuel as [|f IH]; intros ws h Hh; [done|].
  simpl. destruct ws; [done|]. apply IH. by apply compress_length.
Qed.

Lemma be_bytes_length (n : nat) (x : Z) : List.length (be_bytes n x) = n.
Proof. induction n as [|n IH]; simpl; [done|]. by rewrite IH. Qed.

(** A SHA-224 digest has 28 bytes. *)
Lemma digest_length (msg : bytes) : List.length (digest msg) = 28%nat.
Proof.
  unfold digest. cbv zeta.
  set (h := blocks _ _ H0).
  assert (List.length h = 8%nat) as Hh by (by apply blocks_length).
  assert (forall l : list Z,
            List.length
              (List.flat_map
                 (fun x => List.map (fun z => match Byte.of_N (Z.to_N z) with
                                              | Some b => b
                                              | None => x00
                                              end) (be_bytes 4 x)) l)
            = (4 * List.length l)%nat) as Hflat.
  { induction l as [|x l IH]; [done|].
    cbn [List.flat_map]. rewrite length_app, IH, length_map, be_bytes_length.
    simpl. lia. }
  rewrite Hflat, length_firstn, Hh. done.
Qed.

Lemma hexlify_length (bs : bytes) :
  List.length (hexlify bs) = (2 * List.length bs)%nat.
Proof. induction bs as [|b bs IH]; simpl; [done|]. rewrite IH. lia. Qed.

Lemma decode_length (b : bytes) : String.length (decode b) = List.length b.
Proof.
  unfold decode, string_of_list_byte.
  induction b as [|c b IH]; simpl; [done|]. by rewrite IH.
Qed.

(** The text of a SHA-224 digest has 56 characters. *)
Lemma hexdigest_length (msg : bytes) : String.length (hexdigest msg) = 56%nat.
Proof.
  unfold hexdigest. by rewrite decode_length, hexlify_length, digest_length.
Qed.

End SHA224Facts.

Section IdentityFacts.
Context `{Externals}.

Lemma string_app_length (a b : string) :
  String.length (a +:+ b) = (String.length a + String.length b)%nat.
Proof. induction a as [|c a IH]; simpl; [done|]. by rewrite IH. Qed.

(** X25.  With authentication disabled an identity is the 56 hexadecimal
    digits of a SHA-224 digest followed by [_unauthenticated], 72
    characters in all, so it is never a text that [VerifyKey] accepts: no
    identity of an unsafe-mode server is a well-formed public key. *)
Theorem unsafe_mode_id_shape (self : WorkerManager) (now public_key_str : string) :
  do_public_key_auth self = false ->
  let worker_id := generate_id_for_worker self now public_key_str in
  String.length worker_id = 72%nat /\
  (exists digest,
     worker_id = digest +:+ "_unauthenticated" /\
     String.length digest = 56%nat) /\
  returns (VerifyKey (encode worker_id)) = false.
Proof.
  intros Hauth worker_id.
  assert (worker_id = SHA224.hexdigest (encode now) +:+ "_unauthenticated") as Hid.
  { unfold worker_id, generate_id_for_worker. by rewrite Hauth. }
  assert (String.length worker_id = 72%nat) as Hlen.
  { rewrite Hid, string_app_length, SHA224Facts.hexdigest_length. done. }
  split; [done|]. split.
  - exists (SHA224.hexdigest (encode now)). split; [done|].
    apply SHA224Facts.hexdigest_length.
  - destruct (VerifyKey (encode worker_id)) as [vk|e] eqn:Hvk; [|done].
    apply VerifyKey_length in Hvk. rewrite Hlen in Hvk. discriminate Hvk.
Qed.

End IdentityFacts.


(* ===================================================================== *)
(** * The properties on concrete runs *)
(* ===================================================================== *)

Section Examples.
#[local] Existing Instance demo_externals.
#[local] Existing Instance demo_server_externals.

Lemma demo_registered_reachable : reachable demo_registered.
Proof.
  unfold reachable, demo_registered.
  apply reach_step; [apply reach_step; [apply reach_new|exact I]|exact I].
Defined.



(** C2 fails as stated: after [add_worker], [set_registration_status] to
    true and [remove_worker], the worker is registered and not allowed. *)
Lemma registered_but_not_allowed :
  let self := wm_step demo_registered (CallRemoveWorker demo_key) in
  reachable self /\
  is_worker_registered self demo_key = true /\
  is_worker_allowed self demo_key = false.
Proof.
  split; [|vm_compute; by split].
  apply reach_step; [apply demo_registered_reachable|exact I].
Qed.

Lemma registered_implies_allowed_witness :
  reachable_unregistering demo_registered /\
  is_worker_registered demo_registered demo_key = true /\
  is_worker_allowed demo_registered demo_key = true.
Proof.
  assert (reachable_unregistering demo_registered) as Hreach.
  { unfold reachable_unregistering, demo_registered.
    apply reach_step; [apply reach_step; [apply reach_new|exact I]|exact I]. }
  split; [exact Hreach|]. split; [reflexivity|].
  apply (registered_implies_allowed demo_registered demo_key Hreach).
  reflexivity.
Defined.







Lemma generate_id_for_worker_same_clock_reading_witness :
  do_public_key_auth (new_manager false None) = false /\
  generate_id_for_worker (new_manager false None) demo_now "worker one"
  = generate_id_for_worker (new_manager false None) demo_now "worker two".
Proof.
  split; [reflexivity|].
  exact (generate_id_for_worker_same_clock_reading (new_manager false None)
           demo_now "worker one" "worker two" eq_refl).
Defined.

(** Two registrations that read the same clock value end up as one
    worker: the second is told the identity of the first. *)
Lemma two_registrations_one_identity :
  let s := run (new_server (new_manager false None))
             [EvRegister demo_now "worker one" "";
              EvRegister demo_now "worker two" ""] in
  allowed_workers (worker_manager s) = [demo_worker] /\
  snd (add_and_register_worker (new_server (new_manager false None))
         demo_now "worker one" "") = Ret (RespText demo_worker) /\
  snd (add_and_register_worker
         (serve (new_server (new_manager false None))
                (EvRegister demo_now "worker one" ""))
         demo_now "worker two" "") = Ret (RespText demo_worker).
Proof. vm_compute. repeat split. Qed.

Lemma bridges_disagree_witness :
  Bridge.ZMQ.is_global_model_most_recent_send demo_callbacks (Bridge.PyInt 123)
  = Bridge.Returned [encode "is_global_model_most_recent"; encode "123"]
      (Bridge.PyBool true) /\
  Bridge.ZQM.is_global_model_most_recent_send demo_callbacks (Bridge.PyInt 123)
  = Bridge.FrontRaised TypeError /\
  Bridge.ZQM.is_global_model_most_recent_send demo_callbacks
    (Bridge.PyBytes (encode "123"))
  = Bridge.NoReply [encode "is_global_model_most_recent"; encode "123"]
      (Some TypeError).
Proof.
  destruct (BridgeFacts.bridges_disagree demo_callbacks (fun _ => true))
    as [Hzmq Hzqm]; [reflexivity|].
  split; [exact (Hzmq 123%Z)|]. split.
  - exact (Hzqm (Bridge.PyInt 123)).
  - exact (Hzqm (Bridge.PyBytes (encode "123"))).
Defined.

End Examples.

(* ===================================================================== *)
(** * The further properties on concrete runs *)
(* ===================================================================== *)

Section MoreExamples.
#[local] Existing Instance demo_externals.
#[local] Existing Instance demo_server_externals.

Lemma remove_then_add_resets_status_witness :
  is_worker_allowed (wm_run (new_manager true None) demo_calls) demo_key = true /\
  is_worker_registered (wm_run (new_manager true None) demo_calls) demo_key = true /\
  py_tuple (snd (add_worker
                   (fst (remove_worker (wm_run (new_manager true None) demo_calls)
                           demo_key)) "" demo_key)) = (demo_key, true) /\
  is_worker_registered
    (fst (add_worker
            (fst (remove_worker (wm_run (new_manager true None) demo_calls)
                    demo_key)) "" demo_key)) demo_key = false.
Proof.
  assert (is_worker_allowed (wm_run (new_manager true None) demo_calls) demo_key
          = true) as Hal by (vm_compute; reflexivity).
  pose proof (remove_then_add_resets_status None demo_calls "" demo_key Hal)
    as Hthm.
  vm_compute in Hthm. destruct Hthm as (Hret & _ & Hreg & _).
  split; [exact Hal|]. split; [vm_compute; reflexivity|].
  split; vm_compute; [exact Hret|exact Hreg].
Defined.


Lemma get_worker_list_keeps_workers_witness :
  (demo_key, true) ∈ get_worker_list demo_registered /\
  is_worker_allowed (wm_run demo_registered [CallRemoveWorker demo_key]) demo_key
  = false /\
  exists b', (demo_key, b')
             ∈ get_worker_list (wm_run demo_registered [CallRemoveWorker demo_key]).
Proof.
  assert ((demo_key, true) ∈ get_worker_list demo_registered) as Hin.
  { apply elem_of_map_to_list. vm_compute. reflexivity. }
  split; [exact Hin|]. split; [vm_compute; reflexivity|].
  exact (get_worker_list_keeps_workers demo_registered [CallRemoveWorker demo_key]
           demo_key true Hin).
Defined.

Lemma demo_worker_valid : demo_worker <> INVALID_WORKER.
Proof. intros Heq. vm_compute in Heq. discriminate Heq. Defined.

Lemma demo_key_valid : demo_key <> INVALID_WORKER.
Proof. intros Heq. vm_compute in Heq. discriminate Heq. Defined.



Lemma add_and_register_worker_registers_witness :
  snd (add_and_register_worker (new_server (new_manager false None))
         demo_now "dummy public key" "") = Ret (RespText demo_worker) /\
  demo_worker <> INVALID_WORKER /\
  is_worker_registered
    (worker_manager
       (fst (add_and_register_worker (new_server (new_manager false None))
               demo_now "dummy public key" ""))) demo_worker = true /\
  callback_log
    (fst (add_and_register_worker (new_server (new_manager false None))
            demo_now "dummy public key" "")) = [CallRegister demo_worker].
Proof.
  assert (snd (add_and_register_worker
                 (run (new_server (new_manager false None)) [])
                 demo_now "dummy public key" "") = Ret (RespText demo_worker))
    as Hret by (vm_compute; reflexivity).
  pose proof (add_and_register_worker_registers false None [] demo_now
                "dummy public key" "" demo_worker Hret demo_worker_valid) as Hthm.
  vm_compute in Hthm. destruct Hthm as (_ & _ & Hreg & Hlog).
  split; [exact Hret|]. split; [exact demo_worker_valid|].
  split; vm_compute; [exact Hreg|exact Hlog].
Defined.



End MoreExamples.

Section KeyExamples.
#[local] Existing Instance demo_externals.

Lemma unsafe_mode_id_shape_witness :
  do_public_key_auth (new_manager false None) = false /\
  String.length (generate_id_for_worker (new_manager false None) demo_now
                   "dummy public key") = 72%nat /\
  returns (VerifyKey (encode (generate_id_for_worker (new_manager false None)
                                demo_now "dummy public key"))) = false.
Proof.
  assert (do_public_key_auth (new_manager false None) = false) as Hauth
    by reflexivity.
  pose proof (unsafe_mode_id_shape (new_manager false None) demo_now
                "dummy public key" Hauth) as (Hlen & _ & Hkey).
  split; [exact Hauth|]. split; [exact Hlen|exact Hkey].
Defined.

End KeyExamples.
